(** * EHRglot: schema loader, generator dispatch and Python type mapper

    A shallow embedding of [pkg/schema/loader.go],
    [pkg/generator/python/python.go] and the [generate] command of
    [cmd/ehrglot/main.go], with the properties the design document states
    about them.

    Go strings are byte sequences and are modelled by [string] (a list of
    8-bit characters).  Functions that return [(T, error)] return a
    [result]; functions that return only [error] return an [option error]
    where [None] is Go's [nil].  File-system calls are threaded through an
    explicit world that records every call in a trace. *)

From Stdlib Require Import Ascii String.
From stdpp Require Import gmap strings list.

(** ** Go's [strings] package, as far as the sources use it *)

Module strings.

(** [strings.HasPrefix(s, prefix)]:
    [len(s) >= len(prefix) && s[:len(prefix)] == prefix]. *)
Fixpoint HasPrefix (s prefix : string) {struct prefix} : bool :=
  match prefix, s with
  | EmptyString, _ => true
  | String _ _, EmptyString => false
  | String p prefix', String c s' => Ascii.eqb c p && HasPrefix s' prefix'
  end.

(** [strings.TrimPrefix(s, prefix)]: [s] without the leading [prefix], or
    [s] itself when it does not start with [prefix]. *)
Definition TrimPrefix (s prefix : string) : string :=
  if HasPrefix s prefix
  then String.substring (String.length prefix)
                        (String.length s - String.length prefix) s
  else s.

(** [strings.HasSuffix(s, suffix)]:
    [len(s) >= len(suffix) && s[len(s)-len(suffix):] == suffix]. *)
Definition HasSuffix (s suffix : string) : bool :=
  (String.length suffix <=? String.length s)
  && String.eqb (String.substring (String.length s - String.length suffix)
                                  (String.length suffix) s) suffix.

(** [strings.ToLower] on the ASCII range. *)
Definition lower_ascii (c : ascii) : ascii :=
  let n := nat_of_ascii c in
  if (65 <=? n) && (n <=? 90) then ascii_of_nat (n + 32) else c.

Fixpoint ToLower (s : string) : string :=
  match s with
  | EmptyString => EmptyString
  | String c rest => String (lower_ascii c) (ToLower rest)
  end.

End strings.

(** The string ["\n"]. *)
Definition newline : string := String "010"%char EmptyString.

(** The string made of one double quote. *)
Definition dquote : string := String "034"%char EmptyString.

(** Membership of a value in the label list of one [case] of a Go
    [switch] on strings. *)
Definition case_of (tok : string) (labels : list string) : bool :=
  existsb (String.eqb tok) labels.

(** ** Errors, results and the file-system world *)

(** A Go [error] value.  [New] stands for a leaf error (an operating-system
    or library error, or [fmt.Errorf] without [%w]); [Wrap msg cause] is
    [fmt.Errorf(msg + ": %w", cause)]. *)
Inductive error : Type :=
| New (msg : string)
| Wrap (msg : string) (cause : error).

(** The method [Error()]. *)
Fixpoint Error (e : error) : string :=
  match e with
  | New msg => msg
  | Wrap msg cause => msg +:+ ": " +:+ Error cause
  end.

(** A Go return value [(T, error)]. *)
Inductive result (A : Type) : Type :=
| Ok (a : A)
| Err (e : error).
Arguments Ok {A} a.
Arguments Err {A} e.

(** [os.DirEntry], reduced to the two methods the loader calls. *)
Record DirEntry : Type := mkDirEntry { de_Name : string; de_IsDir : bool }.

(** What the file system answers to each call the program makes.
    [fs_Stat] is the error of [os.Stat] ([None] is [nil]), [fs_Glob] is
    [filepath.Glob] on a pattern. *)
Record FileSystem : Type := mkFS {
  fs_Stat : string -> option error;
  fs_ReadDir : string -> result (list DirEntry);
  fs_Glob : string -> result (list string);
  fs_ReadFile : string -> result string
}.

(** The observable calls, in the order they are made: the four reading
    calls of the loader, the three writing calls of a generator
    ([os.MkdirAll], [os.Create], template output) and [fmt.Printf]. *)
Inductive Event : Type :=
| EvStat (name : string)
| EvReadDir (name : string)
| EvGlob (pattern : string)
| EvReadFile (name : string)
| EvMkdirAll (path : string)
| EvCreate (name : string)
| EvWrite (name data : string)
| EvPrintf (text : string).

(** Calls that only read the file system. *)
Definition reads (ev : Event) : bool :=
  match ev with
  | EvStat _ | EvReadDir _ | EvGlob _ | EvReadFile _ => true
  | _ => false
  end.

Record World : Type := mkWorld { w_fs : FileSystem; w_trace : list Event }.

Definition log (ev : Event) (w : World) : World :=
  {| w_fs := w_fs w; w_trace := w_trace w ++ [ev] |}.

(** Code with side effects: a function of the world. *)
Definition IO (A : Type) : Type := World -> A * World.

Global Instance IO_ret : MRet IO := fun A a w => (a, w).
Global Instance IO_bind : MBind IO :=
  fun A B f m w => let (a, w') := m w in f a w'.

Definition os_Stat (name : string) : IO (option error) :=
  fun w => (fs_Stat (w_fs w) name, log (EvStat name) w).
Definition os_ReadDir (name : string) : IO (result (list DirEntry)) :=
  fun w => (fs_ReadDir (w_fs w) name, log (EvReadDir name) w).
Definition filepath_Glob (pattern : string) : IO (result (list string)) :=
  fun w => (fs_Glob (w_fs w) pattern, log (EvGlob pattern) w).
Definition os_ReadFile (name : string) : IO (result string) :=
  fun w => (fs_ReadFile (w_fs w) name, log (EvReadFile name) w).
Definition fmt_Printf (text : string) : IO unit :=
  fun w => (tt, log (EvPrintf text) w).

(** ** Schema model and loader ([pkg/schema/loader.go]) *)

Module schema.

Module Field.
#[local] Unset Elimination Schemes.
Inductive t : Type := mk {
  Name : string;
  Type_ : string;
  Required : bool;
  Description : string;
  PIILevel : string;
  Children : list t
}.
#[local] Set Elimination Schemes.
End Field.

Module Schema.
Record t : Type := mk {
  Name : string;
  Resource : string;
  Description : string;
  Fields : list Field.t;
  SourceFile : string;
  Namespace : string
}.

(** [GetName]: the schema name, from [name] or from [resource]. *)
Definition GetName (s : t) : string :=
  if negb (String.eqb (Name s) "") then Name s else Resource s.

(** The two assignments [schema.SourceFile = file] and
    [schema.Namespace = namespace]. *)
Definition stamp (s : t) (file namespace : string) : t :=
  {| Name := Name s; Resource := Resource s; Description := Description s;
     Fields := Fields s; SourceFile := file; Namespace := namespace |}.
End Schema.

Module FieldMapping.
Record t : Type := mk { Source : string; Target : string; Transform : string }.
End FieldMapping.

Module SchemaMapping.
Record t : Type := mk {
  SourceSystem : string;
  SourceTable : string;
  TargetResource : string;
  FieldMappings : list FieldMapping.t;
  SourceFile : string
}.
End SchemaMapping.

(** The library functions the loader calls and whose code is outside the
    repository: [filepath.Join] and [yaml.Unmarshal] into a zero
    [Schema]. *)
Class Runtime : Type := mkRuntime {
  filepath_Join : string -> string -> string;
  yaml_Unmarshal : string -> result Schema.t
}.

Record Loader : Type := mkLoader { baseDir : string }.

Definition NewLoader (baseDir : string) : Loader := {| baseDir := baseDir |}.

(** The interface [Generator]. *)
Record Generator : Type := mkGenerator {
  Generate : list Schema.t -> string -> IO (option error);
  GenerateMappings : list SchemaMapping.t -> string -> IO (option error)
}.

Section Loader.
Context {R : Runtime}.

(** The [for _, file := range files] loop of [loadSchemaDir]; every
    [continue] is a recursive call with [schemas] unchanged. *)
Fixpoint loadSchemaFiles (namespace : string) (files : list string)
    (schemas : list Schema.t) : IO (list Schema.t) :=
  match files with
  | [] => mret schemas
  | file :: rest =>
      if strings.HasSuffix file "_mapping.yaml"
      then loadSchemaFiles namespace rest schemas
      else
        r ← os_ReadFile file;
        match r with
        | Err _ => loadSchemaFiles namespace rest schemas
        | Ok data =>
            match yaml_Unmarshal data with
            | Err _ => loadSchemaFiles namespace rest schemas
            | Ok schema =>
                if String.eqb (Schema.GetName schema) ""
                then loadSchemaFiles namespace rest schemas
                else loadSchemaFiles namespace rest
                       (schemas ++ [Schema.stamp schema file namespace])
            end
        end
  end.

Definition loadSchemaDir (l : Loader) (dir namespace : string)
    : IO (result (list Schema.t)) :=
  r ← filepath_Glob (filepath_Join dir "*.yaml");
  match r with
  | Err err => mret (Err err)
  | Ok files =>
      schemas ← loadSchemaFiles namespace files [];
      mret (Ok schemas)
  end.

(** The [for _, entry := range entries] loop of [LoadAll]. *)
Fixpoint loadEntries (l : Loader) (entries : list DirEntry)
    (schemas : list Schema.t) : IO (list Schema.t) :=
  match entries with
  | [] => mret schemas
  | entry :: rest =>
      if negb (de_IsDir entry) then loadEntries l rest schemas
      else
        let name := de_Name entry in
        if String.eqb name "fhir_r4" || String.eqb name "schema_overrides"
        then loadEntries l rest schemas
        else
          let dir := filepath_Join (baseDir l) name in
          r ← loadSchemaDir l dir name;
          match r with
          | Err _ => loadEntries l rest schemas
          | Ok dirSchemas => loadEntries l rest (schemas ++ dirSchemas)
          end
  end.

Definition LoadAll (l : Loader) : IO (result (list Schema.t)) :=
  let fhirDir := filepath_Join (baseDir l) "fhir_r4" in
  st ← os_Stat fhirDir;
  r ← match st with
      | None =>
          r ← loadSchemaDir l fhirDir "fhir_r4";
          match r with
          | Err err => mret (Err (Wrap "failed to load fhir_r4" err))
          | Ok fhirSchemas => mret (Ok ([] ++ fhirSchemas))
          end
      | Some _ => mret (Ok [])
      end;
  match r with
  | Err err => mret (Err err)
  | Ok schemas =>
      r ← os_ReadDir (baseDir l);
      match r with
      | Err err => mret (Err (Wrap "failed to read schema dir" err))
      | Ok entries =>
          schemas ← loadEntries l entries schemas;
          mret (Ok schemas)
      end
  end.

(** [ListSchemas]: one ["namespace/name"] string per loaded schema. *)
Definition ListSchemas (l : Loader) : IO (result (list string)) :=
  r ← LoadAll l;
  match r with
  | Err err => mret (Err err)
  | Ok schemas =>
      mret (Ok (map (fun s => Schema.Namespace s +:+ "/" +:+ Schema.GetName s)
                    schemas))
  end.
End Loader.

(** *** What a run of the loader amounts to

    The functions below describe, without the world, the value and the
    calls of each loader function; the lemmas of section [LoaderFacts]
    prove that the code above computes exactly these. *)
Section LoaderSummary.
Context {R : Runtime}.
Variable fs : FileSystem.

(** The schema one candidate file contributes, if any. *)
Definition decodeFile (namespace file : string) : option Schema.t :=
  if strings.HasSuffix file "_mapping.yaml" then None
  else match fs_ReadFile fs file with
       | Err _ => None
       | Ok data =>
           match yaml_Unmarshal data with
           | Err _ => None
           | Ok schema =>
               if String.eqb (Schema.GetName schema) "" then None
               else Some (Schema.stamp schema file namespace)
           end
       end.

Definition fileReads (files : list string) : list Event :=
  map EvReadFile
      (filter (fun file => strings.HasSuffix file "_mapping.yaml" = false) files).

Definition dirSchemas (dir namespace : string) : result (list Schema.t) :=
  match fs_Glob fs (filepath_Join dir "*.yaml") with
  | Err err => Err err
  | Ok files => Ok (omap (decodeFile namespace) files)
  end.

Definition dirReads (dir : string) : list Event :=
  EvGlob (filepath_Join dir "*.yaml") ::
  match fs_Glob fs (filepath_Join dir "*.yaml") with
  | Err _ => []
  | Ok files => fileReads files
  end.

(** The directory entries that [LoadAll] scans as namespaces. *)
Definition scanned (entry : DirEntry) : bool :=
  de_IsDir entry
  && negb (String.eqb (de_Name entry) "fhir_r4"
           || String.eqb (de_Name entry) "schema_overrides").

Definition entrySchemas (base : string) (entry : DirEntry) : list Schema.t :=
  if scanned entry
  then match dirSchemas (filepath_Join base (de_Name entry)) (de_Name entry) with
       | Err _ => []
       | Ok dirSchemas => dirSchemas
       end
  else [].

Definition entryReads (base : string) (entry : DirEntry) : list Event :=
  if scanned entry then dirReads (filepath_Join base (de_Name entry)) else [].

Definition fhirResult (base : string) : result (list Schema.t) :=
  match fs_Stat fs (filepath_Join base "fhir_r4") with
  | None =>
      match dirSchemas (filepath_Join base "fhir_r4") "fhir_r4" with
      | Err err => Err (Wrap "failed to load fhir_r4" err)
      | Ok fhirSchemas => Ok fhirSchemas
      end
  | Some _ => Ok []
  end.

Definition loadAllResult (base : string) : result (list Schema.t) :=
  match fhirResult base with
  | Err err => Err err
  | Ok fhirSchemas =>
      match fs_ReadDir fs base with
      | Err err => Err (Wrap "failed to read schema dir" err)
      | Ok entries =>
          Ok (fhirSchemas ++ entries ≫= entrySchemas base)
      end
  end.

Definition loadAllReads (base : string) : list Event :=
  EvStat (filepath_Join base "fhir_r4") ::
  match fs_Stat fs (filepath_Join base "fhir_r4") with
  | None => dirReads (filepath_Join base "fhir_r4")
  | Some _ => []
  end ++
  match fhirResult base with
  | Err _ => []
  | Ok _ =>
      EvReadDir base ::
      match fs_ReadDir fs base with
      | Err _ => []
      | Ok entries => entries ≫= entryReads base
      end
  end.

(** A candidate file that cannot be read or does not deserialize. *)
Definition corrupt (file : string) : bool :=
  match fs_ReadFile fs file with
  | Err _ => true
  | Ok data => match yaml_Unmarshal data with Err _ => true | Ok _ => false end
  end.

(** The same file system with [file] gone from every enumeration. *)
Definition removeFile (file : string) : FileSystem :=
  {| fs_Stat := fs_Stat fs;
     fs_ReadDir := fs_ReadDir fs;
     fs_Glob := fun pattern =>
       match fs_Glob fs pattern with
       | Err err => Err err
       | Ok files => Ok (filter (fun f => f <> file) files)
       end;
     fs_ReadFile := fs_ReadFile fs |}.
End LoaderSummary.

(** *** Mapping files

    [LoadMappings] only reads; it is a function of the file system. *)

(** One call of the function passed to [filepath.WalkDir]: either
    [fn(path, d, nil)] with the entry [d], or [fn(path, d, err)] with the
    error of looking at [path] (where [d] is [nil] for the root). *)
Inductive Visit : Type :=
| Entered (path : string) (d : DirEntry)
| Failed (path : string) (d : option DirEntry) (err : error).

(** What the mapping loader takes from outside the repository: the calls
    [filepath.WalkDir] makes from a root when the walk function never asks
    to skip or to stop, in order, and [yaml.Unmarshal] into a zero
    [SchemaMapping]. *)
Class MappingRuntime : Type := mkMappingRuntime {
  walk_visits : string -> list Visit;
  yaml_UnmarshalMapping : string -> result SchemaMapping.t
}.

(** The assignment [mapping.SourceFile = path]. *)
Definition stampMapping (m : SchemaMapping.t) (path : string) : SchemaMapping.t :=
  {| SchemaMapping.SourceSystem := SchemaMapping.SourceSystem m;
     SchemaMapping.SourceTable := SchemaMapping.SourceTable m;
     SchemaMapping.TargetResource := SchemaMapping.TargetResource m;
     SchemaMapping.FieldMappings := SchemaMapping.FieldMappings m;
     SchemaMapping.SourceFile := path |}.

Section Mappings.
Context {M : MappingRuntime}.

(** [filepath.WalkDir]: the walk function is called visit after visit,
    here with the state [acc] its closure updates, and the walk ends with
    the first error the function returns. *)
Fixpoint walkVisits {A : Type} (fn : A -> Visit -> A * option error)
    (visits : list Visit) (acc : A) : A * option error :=
  match visits with
  | [] => (acc, None)
  | v :: rest =>
      match fn acc v with
      | (acc', Some err) => (acc', Some err)
      | (acc', None) => walkVisits fn rest acc'
      end
  end.

Definition filepath_WalkDir {A : Type} (root : string)
    (fn : A -> Visit -> A * option error) (acc : A) : A * option error :=
  walkVisits fn (walk_visits root) acc.

(** The function literal of [LoadMappings]; [mappings] is the variable it
    captures. *)
Definition loadMappingVisit (fs : FileSystem) (mappings : list SchemaMapping.t)
    (v : Visit) : list SchemaMapping.t * option error :=
  match v with
  | Failed _ _ _ => (mappings, None)
  | Entered path d =>
      if de_IsDir d || negb (strings.HasSuffix path "_mapping.yaml")
      then (mappings, None)
      else match fs_ReadFile fs path with
           | Err _ => (mappings, None)
           | Ok data =>
               match yaml_UnmarshalMapping data with
               | Err _ => (mappings, None)
               | Ok mapping => (mappings ++ [stampMapping mapping path], None)
               end
           end
  end.

(** The mapping one visit contributes, if any. *)
Definition visitMapping (fs : FileSystem) (v : Visit) : option SchemaMapping.t :=
  match v with
  | Failed _ _ _ => None
  | Entered path d =>
      if de_IsDir d || negb (strings.HasSuffix path "_mapping.yaml") then None
      else match fs_ReadFile fs path with
           | Err _ => None
           | Ok data =>
               match yaml_UnmarshalMapping data with
               | Err _ => None
               | Ok mapping => Some (stampMapping mapping path)
               end
           end
  end.

(** [LoadMappings] returns the pair [mappings, err]. *)
Definition LoadMappings (l : Loader) (fs : FileSystem)
    : list SchemaMapping.t * option error :=
  filepath_WalkDir (baseDir l) (loadMappingVisit fs) [].
End Mappings.

End schema.

(** ** Python type mapper ([pkg/generator/python/python.go]) *)

Module python.
Import schema.

(** The first loop of [Generate]:
    [byNamespace[s.Namespace] = append(byNamespace[s.Namespace], s)];
    reading a key that is not in the map gives the nil slice. *)
Definition groupByNamespace (schemas : list Schema.t)
    : gmap string (list Schema.t) :=
  foldl (fun byNamespace s =>
           <[Schema.Namespace s :=
               default [] (byNamespace !! Schema.Namespace s) ++ [s]]>
             byNamespace)
        ∅ schemas.

(** [GenerateMappings]: the body is a TODO followed by [return nil]. *)
Definition GenerateMappings (mappings : list SchemaMapping.t)
    (outputDir : string) : IO (option error) :=
  mret None.

(** The non-default arms of the [switch] in [toPythonType]. *)
Definition scalarType (yamlType : string) : option string :=
  if case_of yamlType ["string"; "code"; "id"; "uri"; "url"] then Some "str"
  else if case_of yamlType ["integer"; "positiveInt"; "unsignedInt"] then Some "int"
  else if case_of yamlType ["decimal"] then Some "float"
  else if case_of yamlType ["boolean"] then Some "bool"
  else if case_of yamlType ["date"] then Some "date"
  else if case_of yamlType ["datetime"; "instant"] then Some "datetime"
  else if case_of yamlType ["base64Binary"] then Some "bytes"
  else None.

(** [toPythonType].  The [default] arm strips a leading ["[]"] and
    recurses on the rest, which is a structural subterm of the argument. *)
Fixpoint toPythonType (yamlType : string) : string :=
  match scalarType yamlType with
  | Some py => py
  | None =>
      match yamlType with
      | String "["%char (String "]"%char innerType) =>
          "list[" +:+ toPythonType innerType +:+ "]"
      | _ => "Any"
      end
  end.

(** The collection marker applied [depth] times to a token, and the
    sequence type nested [depth] times around a type. *)
Fixpoint collectionOf (depth : nat) (tok : string) : string :=
  match depth with
  | O => tok
  | S d => "[]" +:+ collectionOf d tok
  end.

Fixpoint listOf (depth : nat) (ty : string) : string :=
  match depth with
  | O => ty
  | S d => "list[" +:+ listOf d ty +:+ "]"
  end.

(** The test [r >= 'A' && r <= 'Z']. *)
Definition is_upper (r : ascii) : bool :=
  (65 <=? nat_of_ascii r) && (nat_of_ascii r <=? 90).

(** The loop of [toSnakeCase] from index [i] on.  Go ranges over runes; on
    text in the ASCII range a rune is a byte, and that is the text the
    properties of this function are stated for. *)
Fixpoint snakeFrom (i : nat) (s : string) : string :=
  match s with
  | EmptyString => EmptyString
  | String r rest =>
      if (0 <? i) && is_upper r
      then String "_"%char (String r (snakeFrom (S i) rest))
      else String r (snakeFrom (S i) rest)
  end.

Definition toSnakeCase (s : string) : string :=
  strings.ToLower (snakeFrom 0 s).

(** Text in the ASCII range. *)
Fixpoint ascii_only (s : string) : bool :=
  match s with
  | EmptyString => true
  | String c rest => (nat_of_ascii c <? 128) && ascii_only rest
  end.

(** The number of upper-case letters of a text. *)
Fixpoint uppers (s : string) : nat :=
  match s with
  | EmptyString => 0
  | String c rest => (if is_upper c then 1 else 0) + uppers rest
  end.

(** A text without its first character. *)
Definition tail (s : string) : string :=
  match s with
  | EmptyString => EmptyString
  | String _ rest => rest
  end.

(** What the templates read of a field. *)
Definition rendered (f : Field.t) : string * string * bool * string :=
  (Field.Name f, Field.Type_ f, Field.Required f, Field.Description f).

(** The names of the Python types the mapper produces. *)
Definition pythonNames : list string :=
  ["str"; "int"; "float"; "bool"; "date"; "datetime"; "bytes"; "Any"].

(** Three double quotes. *)
Definition docquote : string := dquote +:+ dquote +:+ dquote.

(** The template function [schemaName]. *)
Definition schemaName (s : Schema.t) : string := Schema.GetName s.

(** The text the template of [generateInit] produces for [schemas] (for
    the template function [lower], see [asciiNames] below). *)
Definition renderInit (schemas : list Schema.t) : string :=
  docquote +:+ "Generated from YAML schemas." +:+ docquote +:+ newline
  +:+ newline
  +:+ String.concat EmptyString
        (map (fun s => "from ." +:+ strings.ToLower (schemaName s)
                       +:+ " import " +:+ schemaName s +:+ newline) schemas)
  +:+ newline
  +:+ "__all__ = [" +:+ newline
  +:+ String.concat EmptyString
        (map (fun s => "    " +:+ dquote +:+ schemaName s +:+ dquote +:+ ","
                       +:+ newline) schemas)
  +:+ "]" +:+ newline.

(** The body of [{{range .Fields}}] for one field. *)
Definition renderField (f : Field.t) : string :=
  newline
  +:+ "    " +:+ toSnakeCase (Field.Name f) +:+ ": " +:+ toPythonType (Field.Type_ f)
  +:+ (if negb (Field.Required f) then " | None = None" else EmptyString)
  +:+ (if String.eqb (Field.Description f) EmptyString then EmptyString
       else "  # " +:+ Field.Description f)
  +:+ newline.

(** The text the template of [generateSchema] produces for [s]. *)
Definition renderSchema (s : Schema.t) : string :=
  docquote +:+ Schema.Description s +:+ docquote +:+ newline
  +:+ newline
  +:+ "from __future__ import annotations" +:+ newline
  +:+ newline
  +:+ "from dataclasses import dataclass" +:+ newline
  +:+ "from datetime import date, datetime" +:+ newline
  +:+ "from typing import Any" +:+ newline
  +:+ newline
  +:+ newline
  +:+ "@dataclass" +:+ newline
  +:+ "class " +:+ schemaName s +:+ ":" +:+ newline
  +:+ "    " +:+ docquote +:+ Schema.Description s +:+ docquote +:+ newline
  +:+ String.concat EmptyString (map renderField (Schema.Fields s))
  +:+ newline.

(** What the generator takes from outside the repository: the errors of
    [os.MkdirAll], of [os.Create] and of executing a template into a file
    ([None] is [nil]), and the order in which [range] goes through the map
    of groups, which is some order of its entries.  The writing calls are
    recorded in the trace; the answers of the reading calls are not
    updated after a write, and nothing here reads after writing. *)
Class Output : Type := mkOutput {
  out_MkdirAll : string -> option error;
  out_Create : string -> option error;
  out_Execute : string -> string -> option error;
  range_order : gmap string (list Schema.t) -> list (string * list Schema.t);
  range_perm : forall m, range_order m ≡ₚ map_to_list m
}.

Section Generate.
Context {R : Runtime} {O : Output}.

Definition os_MkdirAll (path : string) : IO (option error) :=
  fun w => (out_MkdirAll path, log (EvMkdirAll path) w).
Definition os_Create (name : string) : IO (option error) :=
  fun w => (out_Create name, log (EvCreate name) w).
Definition tmpl_Execute (name text : string) : IO (option error) :=
  fun w => (out_Execute name text, log (EvWrite name text) w).

(** [executeTemplate] for a template whose text parses, as the two
    templates of this file do; [text] is what the template produces for
    the data. *)
Definition executeTemplate (text path : string) : IO (option error) :=
  e ← os_Create path;
  match e with
  | Some err => mret (Some (Wrap "failed to create file" err))
  | None => tmpl_Execute path text
  end.

Definition generateInit (schemas : list Schema.t) (path : string)
    : IO (option error) :=
  executeTemplate (renderInit schemas) path.

Definition generateSchema (s : Schema.t) (path : string) : IO (option error) :=
  executeTemplate (renderSchema s) path.

(** The loop [for _, s := range nsSchemas] of [Generate]. *)
Fixpoint generateSchemas (nsDir : string) (nsSchemas : list Schema.t)
    : IO (option error) :=
  match nsSchemas with
  | [] => mret None
  | s :: rest =>
      let filename := strings.ToLower (Schema.GetName s) +:+ ".py" in
      let path := filepath_Join nsDir filename in
      e ← generateSchema s path;
      match e with
      | Some err => mret (Some err)
      | None => generateSchemas nsDir rest
      end
  end.

(** The loop [for namespace, nsSchemas := range byNamespace]. *)
Fixpoint generateNamespaces (outputDir : string)
    (groups : list (string * list Schema.t)) : IO (option error) :=
  match groups with
  | [] => mret None
  | (namespace, nsSchemas) :: rest =>
      let nsDir := filepath_Join outputDir namespace in
      e ← os_MkdirAll nsDir;
      match e with
      | Some err => mret (Some (Wrap "failed to create directory" err))
      | None =>
          let initPath := filepath_Join nsDir "__init__.py" in
          e ← generateInit nsSchemas initPath;
          match e with
          | Some err => mret (Some err)
          | None =>
              e ← generateSchemas nsDir nsSchemas;
              match e with
              | Some err => mret (Some err)
              | None => generateNamespaces outputDir rest
              end
          end
      end
  end.

Definition Generate (schemas : list Schema.t) (outputDir : string)
    : IO (option error) :=
  generateNamespaces outputDir (range_order (groupByNamespace schemas)).

(** [NewGenerator], as a value of the interface [schema.Generator]. *)
Definition NewGenerator : Generator :=
  {| schema.Generate := Generate; schema.GenerateMappings := GenerateMappings |}.
End Generate.

(** The calls of a successful run for one namespace, in order. *)
Definition namespaceCalls {R : Runtime} (outputDir : string)
    (group : string * list Schema.t) : list Event :=
  let nsDir := filepath_Join outputDir group.1 in
  EvMkdirAll nsDir
  :: EvCreate (filepath_Join nsDir "__init__.py")
  :: EvWrite (filepath_Join nsDir "__init__.py") (renderInit group.2)
  :: (group.2 ≫= fun s =>
        let path := filepath_Join nsDir (strings.ToLower (Schema.GetName s) +:+ ".py") in
        [EvCreate path; EvWrite path (renderSchema s)]).

(** Whether the call an event records returned without error. *)
Definition succeeded {O : Output} (ev : Event) : bool :=
  match ev with
  | EvMkdirAll path => bool_decide (out_MkdirAll path = None)
  | EvCreate name => bool_decide (out_Create name = None)
  | EvWrite name text => bool_decide (out_Execute name text = None)
  | _ => true
  end.

(** The names given to [os.Create] by a list of calls, in call order; a
    name created twice is listed twice. *)
Definition createCalls (calls : list Event) : list string :=
  omap (fun ev => match ev with EvCreate name => Some name | _ => None end) calls.

(** A schema whose resolved name and field names are ASCII text.  File
    names and rendered text go through [strings.ToLower] and [toSnakeCase],
    which are modelled on ASCII text; the properties that show a file name
    or a rendered text are stated for such schemas. *)
Definition asciiNames (s : Schema.t) : bool :=
  ascii_only (Schema.GetName s)
  && forallb (fun f => ascii_only (Field.Name f)) (Schema.Fields s).

(** An action that adds [calls] to the trace and either returns [nil]
    after calls that all succeeded, or returns an error right after the
    first call that failed. *)
Definition stopsAtFailure {O : Output} (m : IO (option error)) : Prop :=
  forall w, exists calls,
    w_trace (m w).2 = w_trace w ++ calls /\
    match (m w).1 with
    | None => forallb succeeded calls = true
    | Some _ =>
        exists before ev,
          calls = before ++ [ev] /\
          forallb succeeded before = true /\ succeeded ev = false
    end.

(** The three shapes of an error that comes from a failed output call. *)
Definition outputError {O : Output} (err : error) : Prop :=
  (exists path cause,
     out_MkdirAll path = Some cause /\
     err = Wrap "failed to create directory" cause) \/
  (exists name cause,
     out_Create name = Some cause /\ err = Wrap "failed to create file" cause) \/
  (exists name text, out_Execute name text = Some err).

End python.

(** ** The [generate] command ([cmd/ehrglot/main.go]) *)

Module main.
Import schema.

(** One constructor per generator package imported by [main.go]. *)
Inductive Language : Type :=
| Python | Golang | TypeScript | Java | Rust | CSharp | Scala | Kotlin | SQL.

(** The [switch language] of the [generate] command: the package whose
    [NewGenerator] is called, or [None] in the [default] arm. *)
Definition selectGenerator (language : string) : option Language :=
  if case_of language ["python"] then Some Python
  else if case_of language ["go"; "golang"] then Some Golang
  else if case_of language ["typescript"; "ts"] then Some TypeScript
  else if case_of language ["java"] then Some Java
  else if case_of language ["rust"; "rs"] then Some Rust
  else if case_of language ["csharp"; "cs"] then Some CSharp
  else if case_of language ["scala"] then Some Scala
  else if case_of language ["kotlin"; "kt"] then Some Kotlin
  else if case_of language ["sql"; "dbt"] then Some SQL
  else None.

(** The case labels that lead to each package. *)
Definition identifiers (k : Language) : list string :=
  match k with
  | Python => ["python"]
  | Golang => ["go"; "golang"]
  | TypeScript => ["typescript"; "ts"]
  | Java => ["java"]
  | Rust => ["rust"; "rs"]
  | CSharp => ["csharp"; "cs"]
  | Scala => ["scala"]
  | Kotlin => ["kotlin"; "kt"]
  | SQL => ["sql"; "dbt"]
  end.

Section Generate.
Context {R : Runtime}.
(** [NewGenerator] of each package; eight of the nine packages are
    outside the sources at hand. *)
Variable NewGenerator : Language -> Generator.

(** The [RunE] function of [generateCmd], with the three flag variables
    as arguments. *)
Definition generateCmd (schemaDir outputDir language : string)
    : IO (option error) :=
  let loader := NewLoader schemaDir in
  r ← LoadAll loader;
  match r with
  | Err err => mret (Some (Wrap "failed to load schemas" err))
  | Ok schemas =>
      match selectGenerator language with
      | None => mret (Some (New ("unsupported language: " +:+ language)))
      | Some k =>
          e ← Generate (NewGenerator k) schemas outputDir;
          match e with
          | Some err => mret (Some (Wrap "failed to generate code" err))
          | None =>
              _ ← fmt_Printf ("Generated " +:+ language +:+ " code in "
                               +:+ outputDir +:+ newline);
              mret None
          end
      end
  end.
End Generate.

(** [fmt.Println] of one string. *)
Definition fmt_Println (text : string) : IO unit :=
  fmt_Printf (text +:+ newline).

Definition version : string := "0.1.0".

Section Commands.
Context {R : Runtime}.

(** The loop [for _, s := range schemas] of the [list] command. *)
Fixpoint printSchemas (schemas : list string) : IO unit :=
  match schemas with
  | [] => mret tt
  | s :: rest =>
      _ ← fmt_Printf ("  - " +:+ s +:+ newline);
      printSchemas rest
  end.

(** The [RunE] function of [listCmd]. *)
Definition listCmd (schemaDir : string) : IO (option error) :=
  let loader := NewLoader schemaDir in
  r ← ListSchemas loader;
  match r with
  | Err err => mret (Some (Wrap "failed to list schemas" err))
  | Ok schemas =>
      _ ← fmt_Println "Available schemas:";
      _ ← printSchemas schemas;
      mret None
  end.

(** The [Run] function of [versionCmd]. *)
Definition versionCmd : IO unit :=
  fmt_Printf ("ehrglot version " +:+ version +:+ newline).
End Commands.

End main.

(** ** Override resolver *)

Module overrides.

(** Modelled from the spec: the five protected-data attributes of a field
    or of an override entry; each may be absent. *)
Record Protection : Type := mkProtection {
  pii_level : option string;
  pii_category : option string;
  hipaa_identifier : option string;
  masking_strategy : option string;
  masking_params : option (list (string * string))
}.

#[local] Unset Elimination Schemes.
(** Modelled from the spec: a field with its protected-data attributes
    (the [Field] struct of the loader carries [pii_level] only). *)
Inductive Field : Type := mkField {
  name : string;
  type : string;
  required : bool;
  description : string;
  protection : Protection;
  children : list Field
}.
#[local] Set Elimination Schemes.

(** Modelled from the spec: a schema with its resolved name. *)
Record Schema : Type := mkSchema {
  schema_name : string;
  schema_description : string;
  fields : list Field;
  source_file : string;
  namespace : string
}.

(** Modelled from the spec: the override document, an optional
    description and [field_overrides] keyed by field name. *)
Record OverrideDocument : Type := mkOverride {
  override_description : option string;
  field_overrides : gmap string Protection
}.

(** Modelled from the spec: an attribute named in the override entry
    replaces the field's; an attribute the entry leaves out is kept. *)
Definition replace {A : Type} (base patch : option A) : option A :=
  match patch with
  | Some v => Some v
  | None => base
  end.

Definition protect (base patch : Protection) : Protection :=
  {| pii_level := replace (pii_level base) (pii_level patch);
     pii_category := replace (pii_category base) (pii_category patch);
     hipaa_identifier := replace (hipaa_identifier base) (hipaa_identifier patch);
     masking_strategy := replace (masking_strategy base) (masking_strategy patch);
     masking_params := replace (masking_params base) (masking_params patch) |}.

(** Modelled from the spec: the merge of one field, recursing into
    [children]. *)
Fixpoint mergeField (entries : gmap string Protection) (f : Field) : Field :=
  {| name := name f;
     type := type f;
     required := required f;
     description := description f;
     protection := match entries !! name f with
                   | Some patch => protect (protection f) patch
                   | None => protection f
                   end;
     children := map (mergeField entries) (children f) |}.

(** Modelled from the spec: the override resolver [Merge], which no source
    file of the repository implements ([Field] has only [pii_level], and
    [LoadAll] skips the [schema_overrides] directory).  Following the
    design document: for each field of the base schema, recursing into
    [children], when the override document has an entry keyed by the
    field's name, the protected-data attributes are replaced on a copy of
    the field; [type], [required], [description] and the shape of
    [children] are left as they are; no field is added. *)
Definition Merge (base : Schema) (override : OverrideDocument) : Schema :=
  {| schema_name := schema_name base;
     schema_description := schema_description base;
     fields := map (mergeField (field_overrides override)) (fields base);
     source_file := source_file base;
     namespace := namespace base |}.

(** [framed entries f f']: [f'] is [f] up to the protected-data
    attributes of the fields that [entries] names, at every depth. *)
#[local] Unset Elimination Schemes.
Inductive framed (entries : gmap string Protection) : Field -> Field -> Prop :=
| framed_field f f' :
    name f' = name f ->
    type f' = type f ->
    required f' = required f ->
    description f' = description f ->
    (entries !! name f = None -> protection f' = protection f) ->
    Forall2 (framed entries) (children f) (children f') ->
    framed entries f f'.
#[local] Set Elimination Schemes.

End overrides.

(** ** Test trees

    Small file systems used to run the definitions.  Paths are joined with
    a slash, which is what [filepath.Join] does on clean relative paths, and
    the decoder reads the three one-line documents the trees contain:
    [name: X], [resource: X] and the empty mapping [{}]; anything else is
    rejected as malformed. *)

Module fixtures.
Import schema.

Definition emptySchema : Schema.t :=
  {| Schema.Name := ""; Schema.Resource := ""; Schema.Description := "";
     Schema.Fields := []; Schema.SourceFile := ""; Schema.Namespace := "" |}.

Definition decodeLine (data : string) : result Schema.t :=
  if strings.HasPrefix data "name: " then
    Ok {| Schema.Name := strings.TrimPrefix data "name: "; Schema.Resource := "";
          Schema.Description := ""; Schema.Fields := [];
          Schema.SourceFile := ""; Schema.Namespace := "" |}
  else if strings.HasPrefix data "resource: " then
    Ok {| Schema.Name := ""; Schema.Resource := strings.TrimPrefix data "resource: ";
          Schema.Description := ""; Schema.Fields := [];
          Schema.SourceFile := ""; Schema.Namespace := "" |}
  else if String.eqb data "{}" then Ok emptySchema
  else Err (New "yaml: did not find expected node content").

Definition slashRuntime : Runtime :=
  {| filepath_Join := fun dir name => dir +:+ "/" +:+ name;
     yaml_Unmarshal := decodeLine |}.

Fixpoint assoc {A : Type} (key : string) (table : list (string * A)) : option A :=
  match table with
  | [] => None
  | (k, v) :: rest => if String.eqb key k then Some v else assoc key rest
  end.

(** A file system given by its directories, its files (with [None] for a
    file that exists and cannot be read) and the answers of [Glob]. *)
Definition treeFS (dirs : list (string * list DirEntry))
    (files : list (string * option string))
    (globs : list (string * list string)) : FileSystem :=
  {| fs_Stat := fun name =>
       match assoc name dirs, assoc name files with
       | None, None => Some (New ("stat " +:+ name +:+ ": no such file or directory"))
       | _, _ => None
       end;
     fs_ReadDir := fun name =>
       match assoc name dirs with
       | Some entries => Ok entries
       | None => Err (New ("open " +:+ name +:+ ": no such file or directory"))
       end;
     fs_Glob := fun pattern => Ok (default [] (assoc pattern globs));
     fs_ReadFile := fun name =>
       match assoc name files with
       | Some (Some data) => Ok data
       | Some None => Err (New ("open " +:+ name +:+ ": permission denied"))
       | None => Err (New ("open " +:+ name +:+ ": no such file or directory"))
       end |}.

Definition dir (name : string) : DirEntry := {| de_Name := name; de_IsDir := true |}.
Definition file (name : string) : DirEntry := {| de_Name := name; de_IsDir := false |}.

(** [schemas/] with a FHIR namespace holding one schema, a malformed
    document, a nameless document, an unreadable file and a mapping file,
    an HL7 namespace with one schema, and the override directory. *)
Definition clinicFS : FileSystem :=
  treeFS
    [("schemas", [file "README.md"; dir "fhir_r4"; dir "hl7v2"; dir "schema_overrides"]);
     ("schemas/fhir_r4", [file "broken.yaml"; file "empty.yaml"; file "locked.yaml";
                          file "patient.yaml"; file "patient_mapping.yaml"]);
     ("schemas/hl7v2", [file "pid.yaml"]);
     ("schemas/schema_overrides", [file "patient.yaml"])]
    [("schemas/fhir_r4/broken.yaml", Some "fields: [");
     ("schemas/fhir_r4/empty.yaml", Some "{}");
     ("schemas/fhir_r4/locked.yaml", None);
     ("schemas/fhir_r4/patient.yaml", Some "resource: Patient");
     ("schemas/fhir_r4/patient_mapping.yaml", Some "name: PatientMapping");
     ("schemas/hl7v2/pid.yaml", Some "name: PID");
     ("schemas/schema_overrides/patient.yaml", Some "name: Override")]
    [("schemas/fhir_r4/*.yaml",
      ["schemas/fhir_r4/broken.yaml"; "schemas/fhir_r4/empty.yaml";
       "schemas/fhir_r4/locked.yaml"; "schemas/fhir_r4/patient.yaml";
       "schemas/fhir_r4/patient_mapping.yaml"]);
     ("schemas/hl7v2/*.yaml", ["schemas/hl7v2/pid.yaml"]);
     ("schemas/schema_overrides/*.yaml", ["schemas/schema_overrides/patient.yaml"])].

Definition clinic : World := {| w_fs := clinicFS; w_trace := [] |}.

Definition patient : Schema.t :=
  {| Schema.Name := ""; Schema.Resource := "Patient"; Schema.Description := "";
     Schema.Fields := []; Schema.SourceFile := "schemas/fhir_r4/patient.yaml";
     Schema.Namespace := "fhir_r4" |}.

Definition pid : Schema.t :=
  {| Schema.Name := "PID"; Schema.Resource := ""; Schema.Description := "";
     Schema.Fields := []; Schema.SourceFile := "schemas/hl7v2/pid.yaml";
     Schema.Namespace := "hl7v2" |}.

(** [schemas/] without the FHIR namespace. *)
Definition vendorFS : FileSystem :=
  treeFS
    [("schemas", [dir "hl7v2"]); ("schemas/hl7v2", [file "pid.yaml"])]
    [("schemas/hl7v2/pid.yaml", Some "name: PID")]
    [("schemas/hl7v2/*.yaml", ["schemas/hl7v2/pid.yaml"])].

Definition vendor : World := {| w_fs := vendorFS; w_trace := [] |}.

(** A root whose name holds an unclosed bracket: the FHIR directory
    exists and every [Glob] below the root reports a malformed pattern. *)
Definition bracketFS : FileSystem :=
  {| fs_Stat := fun _ => None;
     fs_ReadDir := fun _ => Ok [dir "fhir_r4"];
     fs_Glob := fun _ => Err (New "syntax error in pattern");
     fs_ReadFile := fun name =>
       Err (New ("open " +:+ name +:+ ": no such file or directory")) |}.

Definition bracket : World := {| w_fs := bracketFS; w_trace := [] |}.

(** No [schemas/] directory at all. *)
Definition bare : World := {| w_fs := treeFS [] [] []; w_trace := [] |}.

(** A generator that does nothing, for runs that never reach it. *)
Definition idle : Generator :=
  {| Generate := fun _ _ => mret None;
     GenerateMappings := python.GenerateMappings |}.

(** The birth-date field and override of the design document. *)
Definition noProtection : overrides.Protection :=
  {| overrides.pii_level := None; overrides.pii_category := None;
     overrides.hipaa_identifier := None; overrides.masking_strategy := None;
     overrides.masking_params := None |}.

Definition birthDate : overrides.Field :=
  {| overrides.name := "birthDate"; overrides.type := "date";
     overrides.required := false; overrides.description := "";
     overrides.protection := noProtection; overrides.children := [] |}.

Definition patientBase : overrides.Schema :=
  {| overrides.schema_name := "Patient"; overrides.schema_description := "";
     overrides.fields := [birthDate];
     overrides.source_file := "schemas/fhir_r4/patient.yaml";
     overrides.namespace := "fhir_r4" |}.

Definition research : overrides.OverrideDocument :=
  {| overrides.override_description := Some "Stricter masking for research compliance";
     overrides.field_overrides :=
       {[ "birthDate" :=
            {| overrides.pii_level := Some "critical";
               overrides.pii_category := None;
               overrides.hipaa_identifier := None;
               overrides.masking_strategy := Some "generalize";
               overrides.masking_params := None |} ]} |}.

(** Output that never fails and ranges over the groups in the order of
    [map_to_list]. *)
Definition quiet : python.Output :=
  {| python.out_MkdirAll := fun _ => None;
     python.out_Create := fun _ => None;
     python.out_Execute := fun _ _ => None;
     python.range_order := map_to_list;
     python.range_perm := fun m => Permutation_refl (map_to_list m) |}.

(** Output on a disk where no directory can be made. *)
Definition readonly : python.Output :=
  {| python.out_MkdirAll := fun path =>
       Some (New ("mkdir " +:+ path +:+ ": read-only file system"));
     python.out_Create := fun _ => None;
     python.out_Execute := fun _ _ => None;
     python.range_order := map_to_list;
     python.range_perm := fun m => Permutation_refl (map_to_list m) |}.

Definition noMapping : SchemaMapping.t :=
  {| SchemaMapping.SourceSystem := EmptyString;
     SchemaMapping.SourceTable := EmptyString;
     SchemaMapping.TargetResource := EmptyString;
     SchemaMapping.FieldMappings := [];
     SchemaMapping.SourceFile := EmptyString |}.

(** The decoder for mapping documents: [target_resource: X] sets the one
    key, a document with other keys only leaves the mapping empty, and
    anything else is rejected as malformed. *)
Definition decodeMappingLine (data : string) : result SchemaMapping.t :=
  if strings.HasPrefix data "target_resource: " then
    Ok {| SchemaMapping.SourceSystem := EmptyString;
          SchemaMapping.SourceTable := EmptyString;
          SchemaMapping.TargetResource := strings.TrimPrefix data "target_resource: ";
          SchemaMapping.FieldMappings := [];
          SchemaMapping.SourceFile := EmptyString |}
  else if strings.HasPrefix data "name: " || strings.HasPrefix data "resource: "
          || String.eqb data "{}" then Ok noMapping
  else Err (New "yaml: did not find expected node content").

(** [schemas/] with one schema, and mapping files in a vendor namespace
    and below the override directory. *)
Definition etlFS : FileSystem :=
  treeFS
    [("schemas", [dir "epic_clarity"; dir "fhir_r4"; dir "schema_overrides"]);
     ("schemas/epic_clarity", [file "broken_mapping.yaml"; file "patient_mapping.yaml"]);
     ("schemas/fhir_r4", [file "patient.yaml"]);
     ("schemas/schema_overrides", [dir "epic_clarity"]);
     ("schemas/schema_overrides/epic_clarity", [file "patient_mapping.yaml"])]
    [("schemas/epic_clarity/broken_mapping.yaml", Some "field_mappings: [");
     ("schemas/epic_clarity/patient_mapping.yaml", Some "target_resource: Patient");
     ("schemas/fhir_r4/patient.yaml", Some "resource: Patient");
     ("schemas/schema_overrides/epic_clarity/patient_mapping.yaml",
      Some "target_resource: Override")]
    [("schemas/epic_clarity/*.yaml",
      ["schemas/epic_clarity/broken_mapping.yaml";
       "schemas/epic_clarity/patient_mapping.yaml"]);
     ("schemas/fhir_r4/*.yaml", ["schemas/fhir_r4/patient.yaml"])].

Definition etl : World := {| w_fs := etlFS; w_trace := [] |}.

(** The walk of [schemas/] in [etlFS], in lexical order. *)
Definition etlWalk : MappingRuntime :=
  {| walk_visits := fun root =>
       if String.eqb root "schemas" then
         [Entered "schemas" (dir "schemas");
          Entered "schemas/epic_clarity" (dir "epic_clarity");
          Entered "schemas/epic_clarity/broken_mapping.yaml" (file "broken_mapping.yaml");
          Entered "schemas/epic_clarity/patient_mapping.yaml" (file "patient_mapping.yaml");
          Entered "schemas/fhir_r4" (dir "fhir_r4");
          Entered "schemas/fhir_r4/patient.yaml" (file "patient.yaml");
          Entered "schemas/schema_overrides" (dir "schema_overrides");
          Entered "schemas/schema_overrides/epic_clarity" (dir "epic_clarity");
          Entered "schemas/schema_overrides/epic_clarity/patient_mapping.yaml"
                  (file "patient_mapping.yaml")]
       else [Failed root None (New ("lstat " +:+ root +:+ ": no such file or directory"))];
     yaml_UnmarshalMapping := decodeMappingLine |}.

(** Two schemas that differ in the children and the PII level of their
    one field. *)
Definition contactField (level : string) (children : list Field.t) : Field.t :=
  {| Field.Name := "telecom"; Field.Type_ := "[]ContactPoint";
     Field.Required := false; Field.Description := "Contact details";
     Field.PIILevel := level; Field.Children := children |}.

Definition valueField : Field.t :=
  {| Field.Name := "value"; Field.Type_ := "string"; Field.Required := true;
     Field.Description := EmptyString; Field.PIILevel := "high";
     Field.Children := [] |}.

Definition contact (level : string) (children : list Field.t) : Schema.t :=
  {| Schema.Name := "Contact"; Schema.Resource := EmptyString;
     Schema.Description := "A contact"; Schema.Fields := [contactField level children];
     Schema.SourceFile := "schemas/fhir_r4/contact.yaml";
     Schema.Namespace := "fhir_r4" |}.

End fixtures.

(** ** Properties of the type mapper *)

Section TypeMapper.
Import strings python.

Lemma HasPrefix_marker s :
  HasPrefix s "[]" = true <-> exists inner, s = "[]" +:+ inner.
Proof.
  split.
  - destruct s as [|a [|b r]]; cbn [HasPrefix]; try discriminate.
    + rewrite andb_false_r. discriminate.
    + destruct (Ascii.eqb_spec a "["%char) as [->|]; [|discriminate].
      destruct (Ascii.eqb_spec b "]"%char) as [->|]; [|discriminate].
      intros _. by exists r.
  - intros [inner ->]. by destruct inner.
Qed.

Lemma substring_all s : String.substring 0 (String.length s) s = s.
Proof. induction s as [|c s IH]; simpl; [done | by rewrite IH]. Qed.

Lemma TrimPrefix_marker inner : TrimPrefix ("[]" +:+ inner) "[]" = inner.
Proof.
  unfold TrimPrefix.
  assert (HasPrefix ("[]" +:+ inner) "[]" = true) as ->
    by (apply HasPrefix_marker; eauto).
  simpl. rewrite Nat.sub_0_r. apply substring_all.
Qed.

Lemma toPythonType_marker inner :
  toPythonType ("[]" +:+ inner) = "list[" +:+ toPythonType inner +:+ "]".
Proof. reflexivity. Qed.

Lemma toPythonType_default yamlType :
  scalarType yamlType = None -> HasPrefix yamlType "[]" = false ->
  toPythonType yamlType = "Any".
Proof.
  intros Hs.
  destruct yamlType as [|a [|b r]]; cbn [toPythonType HasPrefix]; rewrite Hs.
  - reflexivity.
  - intros _. clear. by destruct a as [[] [] [] [] [] [] [] []].
  - destruct (Ascii.eqb_spec a "["%char) as [->|Ha].
    + destruct (Ascii.eqb_spec b "]"%char) as [->|Hb]; [cbn; discriminate|].
      intros _. clear -Hb. by destruct b as [[] [] [] [] [] [] [] []].
    + intros _. clear -Ha. by destruct a as [[] [] [] [] [] [] [] []].
Qed.

(** The source text of [toPythonType], arm by arm: the [switch] first and
    then the [HasPrefix]/[TrimPrefix] test of the [default] arm. *)
Lemma toPythonType_unfold yamlType :
  toPythonType yamlType =
    match scalarType yamlType with
    | Some py => py
    | None =>
        if HasPrefix yamlType "[]"
        then "list[" +:+ toPythonType (TrimPrefix yamlType "[]") +:+ "]"
        else "Any"
    end.
Proof.
  destruct (HasPrefix yamlType "[]") eqn:Hp.
  - apply HasPrefix_marker in Hp as [inner ->].
    by rewrite TrimPrefix_marker.
  - destruct (scalarType yamlType) eqn:Hs.
    + destruct yamlType; cbn [toPythonType]; by rewrite Hs.
    + by apply toPythonType_default.
Qed.

(** C4.  [toPythonType] is a total function whose result is never the
    empty string, and a token that is neither a scalar token of the
    [switch] nor prefixed by the collection marker maps to ["Any"]. *)
Theorem toPythonType_total (yamlType : string) :
  toPythonType yamlType <> "" /\
  (scalarType yamlType = None -> HasPrefix yamlType "[]" = false ->
   toPythonType yamlType = "Any").
Proof.
  split; [|apply toPythonType_default].
  rewrite toPythonType_unfold.
  destruct (scalarType yamlType) as [py|] eqn:Hs.
  - revert Hs. unfold scalarType.
    repeat match goal with
           | |- context [if case_of yamlType ?labels then _ else _] =>
               destruct (case_of yamlType labels); [intros [= <-]; discriminate|]
           end.
    discriminate.
  - destruct (HasPrefix yamlType "[]"); discriminate.
Qed.

Lemma toPythonType_total_witness :
  toPythonType "Quantity" <> "" /\ toPythonType "Quantity" = "Any".
Proof.
  destruct (toPythonType_total "Quantity") as [Hne Hany].
  split; [exact Hne | apply Hany; reflexivity].
Defined.

(** C5.  Mapping a token under the collection marker gives the list type
    of the mapping of the token, so a token under [depth] markers maps to
    the type under [depth] list constructors. *)
Theorem toPythonType_collection :
  (forall t, toPythonType ("[]" +:+ t) = "list[" +:+ toPythonType t +:+ "]") /\
  (forall depth t,
     toPythonType (collectionOf depth t) = listOf depth (toPythonType t)).
Proof.
  split; [exact toPythonType_marker|].
  induction depth as [|depth IH]; intros t; [reflexivity|].
  cbn [collectionOf listOf]. by rewrite toPythonType_marker, IH.
Qed.

End TypeMapper.

(** ** Properties of the loader *)

Section LoaderFacts.
Import schema.
Context {R : Runtime}.

(** Closes equalities of results and worlds that differ by the
    bracketing of the trace. *)
Ltac trace_eq :=
  unfold mret, IO_ret, log; cbn;
  rewrite <- ?app_assoc; cbn; rewrite ?app_nil_r; reflexivity.

Lemma bind_run {A B} (m : IO A) (k : A -> IO B) (w : World) :
  (m ≫= k) w = k (m w).1 (m w).2.
Proof. unfold mbind, IO_bind. by destruct (m w). Qed.

Lemma world_log_app fs tr ev evs :
  {| w_fs := fs; w_trace := (tr ++ [ev]) ++ evs |} =
  {| w_fs := fs; w_trace := tr ++ ev :: evs |}.
Proof. by rewrite <- app_assoc. Qed.

Lemma fileReads_cons file files :
  fileReads (file :: files) =
    if strings.HasSuffix file "_mapping.yaml" then fileReads files
    else EvReadFile file :: fileReads files.
Proof.
  unfold fileReads. rewrite filter_cons.
  destruct (strings.HasSuffix file "_mapping.yaml"); by case_decide.
Qed.

(** The file loop appends, in order, what each candidate contributes, and
    reads each non-mapping candidate once. *)
Lemma loadSchemaFiles_run namespace files schemas w :
  loadSchemaFiles namespace files schemas w =
    (schemas ++ omap (decodeFile (w_fs w) namespace) files,
     {| w_fs := w_fs w; w_trace := w_trace w ++ fileReads files |}).
Proof.
  revert schemas w.
  induction files as [|file files IH]; intros schemas w.
  - cbn. rewrite !app_nil_r. by destruct w.
  - cbn [loadSchemaFiles omap list_omap]. rewrite fileReads_cons.
    unfold decodeFile at 1.
    destruct (strings.HasSuffix file "_mapping.yaml"); [apply IH|].
    rewrite bind_run. cbn [os_ReadFile fst snd].
    destruct (fs_ReadFile (w_fs w) file) as [data|err];
      [destruct (yaml_Unmarshal data) as [schema|err];
       [destruct (String.eqb (Schema.GetName schema) "")|]|];
      rewrite IH; cbn [log w_fs w_trace];
      rewrite world_log_app, <- ?app_assoc; reflexivity.
Qed.

Lemma loadSchemaDir_run l dir namespace w :
  loadSchemaDir l dir namespace w =
    (dirSchemas (w_fs w) dir namespace,
     {| w_fs := w_fs w; w_trace := w_trace w ++ dirReads (w_fs w) dir |}).
Proof.
  unfold loadSchemaDir, dirSchemas, dirReads.
  rewrite bind_run. cbn [filepath_Glob fst snd].
  destruct (fs_Glob (w_fs w) (filepath_Join dir "*.yaml")) as [files|err].
  - rewrite bind_run, loadSchemaFiles_run. cbn.
    by rewrite world_log_app.
  - reflexivity.
Qed.

Lemma loadEntries_run l entries schemas w :
  loadEntries l entries schemas w =
    (schemas ++ entries ≫= entrySchemas (w_fs w) (baseDir l),
     {| w_fs := w_fs w;
        w_trace := w_trace w ++ entries ≫= entryReads (w_fs w) (baseDir l) |}).
Proof.
  revert schemas w.
  induction entries as [|entry entries IH]; intros schemas w.
  - cbn. rewrite !app_nil_r. by destruct w.
  - cbn [loadEntries mbind list_bind]. unfold entrySchemas at 1, entryReads at 1, scanned.
    destruct (de_IsDir entry); cbn [negb andb]; [|apply IH].
    destruct (String.eqb (de_Name entry) "fhir_r4"
              || String.eqb (de_Name entry) "schema_overrides");
      cbn [negb]; [apply IH|].
    rewrite bind_run, loadSchemaDir_run. cbn [fst snd].
    destruct (dirSchemas (w_fs w) _ _) as [dirSchemas|err];
      rewrite IH; cbn [w_fs w_trace]; rewrite <- ?app_assoc; reflexivity.
Qed.

(** [LoadAll] returns [loadAllResult], leaves the file system as it was
    and makes the calls [loadAllReads]. *)
Lemma LoadAll_run l w :
  LoadAll l w =
    (loadAllResult (w_fs w) (baseDir l),
     {| w_fs := w_fs w;
        w_trace := w_trace w ++ loadAllReads (w_fs w) (baseDir l) |}).
Proof.
  unfold LoadAll, loadAllResult, loadAllReads, fhirResult.
  rewrite !bind_run. cbn [os_Stat fst snd].
  destruct (fs_Stat (w_fs w) (filepath_Join (baseDir l) "fhir_r4")) as [err|].
  - cbn. rewrite bind_run. cbn [os_ReadDir fst snd log w_fs w_trace].
    destruct (fs_ReadDir (w_fs w) (baseDir l)) as [entries|err'].
    + rewrite bind_run, loadEntries_run. trace_eq.
    + trace_eq.
  - rewrite bind_run, loadSchemaDir_run. cbn [fst snd log w_fs w_trace].
    destruct (dirSchemas (w_fs w) _ "fhir_r4") as [fhirSchemas|err].
    + cbn. rewrite bind_run. cbn [os_ReadDir fst snd log w_fs w_trace].
      destruct (fs_ReadDir (w_fs w) (baseDir l)) as [entries|err'].
      * rewrite bind_run, loadEntries_run. trace_eq.
      * trace_eq.
    + trace_eq.
Qed.

Lemma LoadAll_result l w : (LoadAll l w).1 = loadAllResult (w_fs w) (baseDir l).
Proof. by rewrite LoadAll_run. Qed.

(** A contributed schema comes from a readable, well-formed document with
    a non-empty resolved name, stamped with its file and namespace. *)
Lemma decodeFile_Some fs namespace file s :
  decodeFile fs namespace file = Some s ->
  exists data schema,
    fs_ReadFile fs file = Ok data /\ yaml_Unmarshal data = Ok schema /\
    Schema.GetName schema <> "" /\ s = Schema.stamp schema file namespace.
Proof.
  unfold decodeFile.
  destruct (strings.HasSuffix file "_mapping.yaml"); [discriminate|].
  destruct (fs_ReadFile fs file) as [data|] eqn:Hread; [|discriminate].
  destruct (yaml_Unmarshal data) as [schema|] eqn:Hyaml; [|discriminate].
  destruct (String.eqb_spec (Schema.GetName schema) "") as [|Hne]; [discriminate|].
  intros [= <-]. by exists data, schema.
Qed.

Lemma dirSchemas_elem fs dir namespace schemas s :
  dirSchemas fs dir namespace = Ok schemas -> s ∈ schemas ->
  exists file, decodeFile fs namespace file = Some s.
Proof.
  unfold dirSchemas. destruct (fs_Glob fs _) as [files|]; [|discriminate].
  intros [= <-] (file & _ & Hfile)%list_elem_of_omap. by exists file.
Qed.

(** Every schema [LoadAll] returns was contributed by some file. *)
Lemma loadAllResult_elem fs base schemas s :
  loadAllResult fs base = Ok schemas -> s ∈ schemas ->
  exists namespace file, decodeFile fs namespace file = Some s.
Proof.
  unfold loadAllResult, fhirResult.
  destruct (fs_Stat fs _).
  - destruct (fs_ReadDir fs base) as [entries|]; [|discriminate].
    intros [= <-]. cbn [app].
    intros (entry & Hs & _)%list_elem_of_bind. revert Hs.
    unfold entrySchemas. destruct (scanned entry); [|by intros ?%elem_of_nil].
    destruct (dirSchemas fs _ (de_Name entry)) eqn:Hdir; [|by intros ?%elem_of_nil].
    intros Hs. destruct (dirSchemas_elem _ _ _ _ _ Hdir Hs) as [file ?]. eauto.
  - destruct (dirSchemas fs _ "fhir_r4") as [fhirSchemas|] eqn:Hfhir; [|discriminate].
    destruct (fs_ReadDir fs base) as [entries|]; [|discriminate].
    intros [= <-] [Hs|Hs]%elem_of_app.
    + destruct (dirSchemas_elem _ _ _ _ _ Hfhir Hs) as [file ?]. eauto.
    + apply list_elem_of_bind in Hs as (entry & Hs & _). revert Hs.
      unfold entrySchemas. destruct (scanned entry); [|by intros ?%elem_of_nil].
      destruct (dirSchemas fs _ (de_Name entry)) eqn:Hdir; [|by intros ?%elem_of_nil].
      intros Hs. destruct (dirSchemas_elem _ _ _ _ _ Hdir Hs) as [file ?]. eauto.
Qed.

(** C1.  [GetName] is [name] when [name] is not empty and [resource]
    otherwise; every schema [LoadAll] returns has a non-empty resolved
    name, and no returned schema comes from a file whose document resolves
    to the empty name. *)
Theorem GetName_resolution :
  (forall s, (Schema.Name s <> "" -> Schema.GetName s = Schema.Name s) /\
             (Schema.Name s = "" -> Schema.GetName s = Schema.Resource s)) /\
  (forall l w schemas,
     (LoadAll l w).1 = Ok schemas ->
     (forall s, s ∈ schemas -> Schema.GetName s <> "") /\
     (forall file data nameless,
        fs_ReadFile (w_fs w) file = Ok data ->
        yaml_Unmarshal data = Ok nameless ->
        Schema.GetName nameless = "" ->
        forall s, s ∈ schemas -> Schema.SourceFile s <> file)).
Proof.
  split.
  - intros s. unfold Schema.GetName.
    destruct (String.eqb_spec (Schema.Name s) ""); split; cbn; congruence.
  - intros l w schemas Hload. rewrite LoadAll_result in Hload. split.
    + intros s Hs.
      destruct (loadAllResult_elem _ _ _ _ Hload Hs) as (ns & file & Hfile).
      apply decodeFile_Some in Hfile as (data & schema & _ & _ & Hne & ->).
      exact Hne.
    + intros file data nameless Hread Hyaml Hempty s Hs Hsrc.
      destruct (loadAllResult_elem _ _ _ _ Hload Hs) as (ns & file' & Hfile).
      apply decodeFile_Some in Hfile as (data' & schema & Hread' & Hyaml' & Hne & ->).
      cbn in Hsrc. subst file'. congruence.
Qed.

(** C2, as the code has it.  When [os.Stat] fails on the [fhir_r4]
    directory, [LoadAll] skips it: the result is the schemas of the other
    namespace directories, or the error of reading the root.  The error
    about [fhir_r4] is returned exactly when the directory exists and
    enumerating its files fails; when the directory exists and its files
    enumerate, to none or to some, no error about it arises and what its
    files contribute comes first in the result. *)
Theorem LoadAll_fhir_absent l w :
  (fs_Stat (w_fs w) (filepath_Join (baseDir l) "fhir_r4") <> None ->
   (LoadAll l w).1 =
     match fs_ReadDir (w_fs w) (baseDir l) with
     | Err err => Err (Wrap "failed to read schema dir" err)
     | Ok entries => Ok (entries ≫= entrySchemas (w_fs w) (baseDir l))
     end) /\
  (forall err,
     (LoadAll l w).1 = Err (Wrap "failed to load fhir_r4" err) <->
     fs_Stat (w_fs w) (filepath_Join (baseDir l) "fhir_r4") = None /\
     fs_Glob (w_fs w) (filepath_Join (filepath_Join (baseDir l) "fhir_r4") "*.yaml")
       = Err err) /\
  (forall files,
     fs_Stat (w_fs w) (filepath_Join (baseDir l) "fhir_r4") = None ->
     fs_Glob (w_fs w) (filepath_Join (filepath_Join (baseDir l) "fhir_r4") "*.yaml")
       = Ok files ->
     (LoadAll l w).1 =
       match fs_ReadDir (w_fs w) (baseDir l) with
       | Err err => Err (Wrap "failed to read schema dir" err)
       | Ok entries =>
           Ok (omap (decodeFile (w_fs w) "fhir_r4") files
               ++ entries ≫= entrySchemas (w_fs w) (baseDir l))
       end).
Proof.
  rewrite LoadAll_result. unfold loadAllResult, fhirResult, dirSchemas.
  split; [|split].
  - intros Habsent. destruct (fs_Stat (w_fs w) _); [|done].
    by destruct (fs_ReadDir (w_fs w) (baseDir l)).
  - intros err. split.
    + destruct (fs_Stat (w_fs w) _) as [absent|].
      * destruct (fs_ReadDir (w_fs w) (baseDir l)); discriminate.
      * destruct (fs_Glob (w_fs w) _) as [files|bad].
        -- destruct (fs_ReadDir (w_fs w) (baseDir l)); discriminate.
        -- by intros [= ->].
    + by intros [-> ->].
  - intros files -> ->. reflexivity.
Qed.

Lemma decodeFile_removeFile fs bad namespace file :
  decodeFile (removeFile fs bad) namespace file = decodeFile fs namespace file.
Proof. reflexivity. Qed.

Lemma decodeFile_corrupt fs namespace bad :
  corrupt fs bad = true -> decodeFile fs namespace bad = None.
Proof.
  unfold corrupt, decodeFile.
  destruct (strings.HasSuffix bad "_mapping.yaml"); [done|].
  destruct (fs_ReadFile fs bad) as [data|]; [|done].
  by destruct (yaml_Unmarshal data).
Qed.

Lemma omap_without {A B} (f : A -> option B) `{EqDecision A} (bad : A) (xs : list A) :
  f bad = None -> omap f (filter (fun x => x <> bad) xs) = omap f xs.
Proof.
  intros Hbad. induction xs as [|x xs IH]; [done|].
  destruct (decide (x = bad)) as [->|Hx].
  - rewrite filter_cons_False by (intros Hne; by apply Hne).
    cbn. by rewrite Hbad, IH.
  - rewrite filter_cons_True by done. cbn. by rewrite IH.
Qed.

Lemma dirSchemas_removeFile fs bad dir namespace :
  corrupt fs bad = true ->
  dirSchemas (removeFile fs bad) dir namespace = dirSchemas fs dir namespace.
Proof.
  intros Hbad. unfold dirSchemas. cbn [removeFile fs_Glob].
  destruct (fs_Glob fs _) as [files|]; [|done]. f_equal.
  rewrite <- (omap_without (decodeFile fs namespace) bad files)
    by by apply decodeFile_corrupt.
  reflexivity.
Qed.

Lemma loadAllResult_removeFile fs bad base :
  corrupt fs bad = true ->
  loadAllResult (removeFile fs bad) base = loadAllResult fs base.
Proof.
  intros Hbad. unfold loadAllResult, fhirResult.
  rewrite dirSchemas_removeFile by done. cbn [removeFile fs_Stat fs_ReadDir].
  assert (forall entries : list DirEntry,
            entries ≫= entrySchemas (removeFile fs bad) base
            = entries ≫= entrySchemas fs base) as Hentries.
  { induction entries as [|entry entries IH]; [done|].
    cbn [mbind list_bind]. f_equal; [|exact IH].
    unfold entrySchemas. by rewrite dirSchemas_removeFile. }
  destruct (fs_Stat fs _); destruct (fs_ReadDir fs base);
    try destruct (dirSchemas fs _ "fhir_r4"); by rewrite ?Hentries.
Qed.

(** C6.  A candidate file that cannot be read or does not deserialize is
    skipped: the file loop over a list that holds it returns what the loop
    over the list without it returns, and [LoadAll] returns what it returns
    on the file system from whose enumerations the file is gone (the same
    schemas, or the same error). *)
Theorem corrupt_file_skipped l w bad :
  corrupt (w_fs w) bad = true ->
  (forall namespace before after schemas,
     (loadSchemaFiles namespace (before ++ bad :: after) schemas w).1
     = (loadSchemaFiles namespace (before ++ after) schemas w).1) /\
  (LoadAll l w).1
  = (LoadAll l {| w_fs := removeFile (w_fs w) bad; w_trace := w_trace w |}).1.
Proof.
  intros Hbad. split.
  - intros namespace before after schemas.
    rewrite !loadSchemaFiles_run. cbn [fst]. f_equal.
    rewrite !omap_app. cbn [omap list_omap].
    by rewrite decodeFile_corrupt.
  - rewrite !LoadAll_result. cbn [w_fs].
    by rewrite loadAllResult_removeFile.
Qed.

Lemma fileReads_reads files : forallb reads (fileReads files) = true.
Proof.
  unfold fileReads.
  induction (filter _ files) as [|file rest IH]; [done | exact IH].
Qed.

Lemma dirReads_reads fs dir : forallb reads (dirReads fs dir) = true.
Proof.
  unfold dirReads. cbn [forallb reads andb].
  destruct (fs_Glob fs _); [apply fileReads_reads | done].
Qed.

Lemma entriesReads_reads fs base (entries : list DirEntry) :
  forallb reads (entries ≫= entryReads fs base) = true.
Proof.
  induction entries as [|entry entries IH]; [done|].
  cbn [mbind list_bind]. rewrite forallb_app. apply andb_true_iff. split; [|exact IH].
  unfold entryReads. destruct (scanned entry); [apply dirReads_reads | done].
Qed.

(** The loader only reads. *)
Lemma loadAllReads_reads fs base : forallb reads (loadAllReads fs base) = true.
Proof.
  unfold loadAllReads. cbn [forallb reads andb].
  rewrite forallb_app. apply andb_true_iff. split.
  - destruct (fs_Stat fs _); [done | apply dirReads_reads].
  - destruct (fhirResult fs base); [|done]. cbn [forallb reads andb].
    destruct (fs_ReadDir fs base); [apply entriesReads_reads | done].
Qed.

End LoaderFacts.

(** ** Properties of the [generate] command *)

Section GenerateFacts.
Import schema main.
Context {R : Runtime}.

Lemma case_of_elem tok labels : case_of tok labels = true <-> tok ∈ labels.
Proof.
  unfold case_of. rewrite existsb_exists, list_elem_of_In. split.
  - by intros (label & Hin & <-%String.eqb_eq).
  - intros Hin. exists tok. by rewrite String.eqb_refl.
Qed.

(** C3, as the code has it.  The [switch] compares the identifier with
    its lower-case labels exactly: an identifier selects a package if and
    only if it is one of the labels of that package, so the two labels of
    a synonym pair select the same package. *)
Theorem selectGenerator_synonyms :
  (forall language k,
     selectGenerator language = Some k <-> language ∈ identifiers k) /\
  selectGenerator "rs" = selectGenerator "rust" /\
  selectGenerator "go" = selectGenerator "golang" /\
  selectGenerator "ts" = selectGenerator "typescript" /\
  selectGenerator "cs" = selectGenerator "csharp" /\
  selectGenerator "kt" = selectGenerator "kotlin" /\
  selectGenerator "dbt" = selectGenerator "sql".
Proof.
  split; [|repeat split].
  intros language k. split.
  - unfold selectGenerator.
    repeat match goal with
           | |- context [if case_of language ?labels then _ else _] =>
               destruct (case_of language labels) eqn:?Hcase;
               [intros [= <-]; by apply case_of_elem|]
           end.
    discriminate.
  - destruct k; cbn [identifiers]; intros Hin;
      repeat (apply elem_of_cons in Hin as [->|Hin]; [reflexivity|]);
      by apply elem_of_nil in Hin.
Qed.

Lemma selectGenerator_synonyms_witness :
  "golang" ∈ identifiers Golang /\ selectGenerator "golang" = Some Golang.
Proof.
  assert ("golang" ∈ identifiers Golang) as Hin
    by (apply list_elem_of_In; cbn; tauto).
  split; [exact Hin|].
  exact (proj2 (proj1 selectGenerator_synonyms "golang" Golang) Hin).
Defined.

(** C9, as the code has it.  With an identifier that no [case] accepts,
    the command first loads the schemas.  When loading succeeds it returns
    an error whose message is ["unsupported language: "] followed by the
    identifier; when loading fails it returns the load error.  No
    generator runs: the world is the one the loader left, with the file
    system as it was and only reading calls added to the trace. *)
Theorem generateCmd_unsupported (NewGenerator : Language -> Generator)
    (schemaDir outputDir language : string) (w : World) :
  selectGenerator language = None ->
  let run := generateCmd NewGenerator schemaDir outputDir language w in
  let load := LoadAll (NewLoader schemaDir) w in
  run.2 = load.2 /\
  w_fs run.2 = w_fs w /\
  (exists calls,
     w_trace run.2 = w_trace w ++ calls /\ forallb reads calls = true) /\
  match load.1 with
  | Ok _ =>
      exists err, run.1 = Some err /\
                  Error err = "unsupported language: " +:+ language
  | Err cause => run.1 = Some (Wrap "failed to load schemas" cause)
  end.
Proof.
  intros Hnone. cbn zeta. unfold generateCmd. rewrite bind_run, Hnone.
  rewrite LoadAll_run. cbn [fst snd NewLoader baseDir].
  destruct (loadAllResult (w_fs w) schemaDir) as [schemas|cause];
    cbn [mret IO_ret fst snd w_fs w_trace];
    (split; [reflexivity|]); (split; [reflexivity|]);
    (split; [eexists; split; [reflexivity | apply loadAllReads_reads]|]).
  - by eexists.
  - reflexivity.
Qed.

End GenerateFacts.

(** ** Properties of the Python generator *)

Section PythonFacts.
Import schema python.

Lemma nonempty_snoc {A} (l : list A) (x : A) :
  match l ++ [x] with [] => None | g => Some g end = Some (l ++ [x]).
Proof. by destruct l. Qed.

(** C7.  The group of a namespace is the sub-sequence of the input made
    of the schemas of that namespace, in input order; a namespace without
    schemas has no group. *)
Theorem groupByNamespace_stable (schemas : list Schema.t) (ns : string) :
  groupByNamespace schemas !! ns =
    match filter (fun s => Schema.Namespace s = ns) schemas with
    | [] => None
    | group => Some group
    end.
Proof.
  unfold groupByNamespace.
  induction schemas as [|s schemas IH] using rev_ind; [done|].
  rewrite foldl_snoc, filter_app.
  destruct (decide (Schema.Namespace s = ns)) as [Hns|Hns].
  - rewrite Hns, lookup_insert_eq, IH, filter_cons_True, filter_nil by done.
    rewrite nonempty_snoc. f_equal. f_equal.
    by destruct (filter _ schemas).
  - rewrite lookup_insert_ne, IH, filter_cons_False, filter_nil, app_nil_r by done.
    reflexivity.
Qed.

(** C10.  [GenerateMappings] returns [nil] for every list of mappings and
    every output directory and leaves the world as it found it: no call is
    made and nothing is written. *)
Theorem GenerateMappings_nil (mappings : list SchemaMapping.t)
    (outputDir : string) (w : World) :
  GenerateMappings mappings outputDir w = (None, w).
Proof. reflexivity. Qed.

End PythonFacts.

(** ** Properties of the override resolver *)

Section OverrideFacts.
Import overrides.

(** Induction on a field with the hypothesis for all its children. *)
Lemma Field_children_ind (P : Field -> Prop) :
  (forall f, Forall P (children f) -> P f) -> forall f, P f.
Proof.
  intros step. fix IH 1. intros [n t r d p cs]. apply step. cbn.
  induction cs as [|c cs IHcs]; constructor; [apply IH | exact IHcs].
Qed.

Lemma mergeField_framed entries f : framed entries f (mergeField entries f).
Proof.
  induction f as [f IH] using Field_children_ind.
  destruct f as [n t r d p cs]. cbn in IH.
  constructor; cbn [mergeField name type required description protection children];
    try reflexivity.
  - by intros ->.
  - induction IH as [|c cs Hc _ IHcs]; constructor; [exact Hc | exact IHcs].
Qed.

(** C8.  The merge keeps the schema's own attributes and, for every field
    at every depth, the name, [type], [required], [description] and the
    shape of [children]; the protected-data attributes of a field the
    override does not name are kept too. *)
Theorem Merge_frame (base : Schema) (override : OverrideDocument) :
  schema_name (Merge base override) = schema_name base /\
  schema_description (Merge base override) = schema_description base /\
  source_file (Merge base override) = source_file base /\
  namespace (Merge base override) = namespace base /\
  Forall2 (framed (field_overrides override))
          (fields base) (fields (Merge base override)).
Proof.
  repeat split. cbn [Merge fields].
  induction (fields base) as [|f fs IH]; constructor;
    [apply mergeField_framed | exact IH].
Qed.

End OverrideFacts.

(** ** Runs on the test trees *)

Section Runs.
Import schema main python fixtures.
#[local] Existing Instance slashRuntime.

Example toPythonType_scalars :
  map toPythonType ["string"; "positiveInt"; "decimal"; "boolean"; "date";
                    "instant"; "base64Binary"; "Quantity"; "[]code"; "[][]date"]
  = ["str"; "int"; "float"; "bool"; "date"; "datetime"; "bytes"; "Any";
     "list[str]"; "list[list[date]]"].
Proof. reflexivity. Qed.

Example LoadAll_clinic :
  (LoadAll (NewLoader "schemas") clinic).1 = Ok [patient; pid].
Proof. vm_compute. reflexivity. Qed.

Example ListSchemas_clinic :
  (ListSchemas (NewLoader "schemas") clinic).1 = Ok ["fhir_r4/Patient"; "hl7v2/PID"].
Proof. vm_compute. reflexivity. Qed.

Example groupByNamespace_clinic :
  groupByNamespace [patient; pid; patient] !! "fhir_r4" = Some [patient; patient].
Proof. vm_compute. reflexivity. Qed.

Example Merge_birthDate :
  map (fun f => (overrides.type f, overrides.required f,
                 overrides.pii_level (overrides.protection f),
                 overrides.masking_strategy (overrides.protection f)))
      (overrides.fields (overrides.Merge patientBase research))
  = [("date", false, Some "critical", Some "generalize")].
Proof. vm_compute. reflexivity. Qed.

Lemma GetName_resolution_witness :
  (LoadAll (NewLoader "schemas") clinic).1 = Ok [patient; pid] /\
  Schema.GetName patient = Schema.Resource patient /\
  (forall s, s ∈ [patient; pid] -> Schema.GetName s <> "") /\
  (forall s, s ∈ [patient; pid] ->
             Schema.SourceFile s <> "schemas/fhir_r4/empty.yaml").
Proof.
  assert ((LoadAll (NewLoader "schemas") clinic).1 = Ok [patient; pid]) as Hload
    by (vm_compute; reflexivity).
  destruct GetName_resolution as [Hname Hloaded].
  destruct (Hloaded _ _ _ Hload) as [Hne Hexcluded].
  split; [exact Hload|]. split; [apply Hname; reflexivity|]. split; [exact Hne|].
  apply (Hexcluded "schemas/fhir_r4/empty.yaml" "{}" emptySchema); reflexivity.
Defined.

(** The FHIR directory is missing and [LoadAll] succeeds with the schemas
    of the other namespace. *)
Lemma LoadAll_without_fhir_counterexample :
  fs_Stat (w_fs vendor) (filepath_Join (baseDir (NewLoader "schemas")) "fhir_r4")
    <> None /\
  (LoadAll (NewLoader "schemas") vendor).1 = Ok [pid].
Proof. split; [discriminate | vm_compute; reflexivity]. Qed.

Lemma LoadAll_fhir_absent_witness :
  (LoadAll (NewLoader "schemas") vendor).1
    = Ok ([dir "hl7v2"] ≫= entrySchemas vendorFS "schemas") /\
  (LoadAll (NewLoader "sch[emas") bracket).1
    = Err (Wrap "failed to load fhir_r4" (New "syntax error in pattern")) /\
  (LoadAll (NewLoader "schemas") clinic).1
    = Ok (omap (decodeFile clinicFS "fhir_r4")
            ["schemas/fhir_r4/broken.yaml"; "schemas/fhir_r4/empty.yaml";
             "schemas/fhir_r4/locked.yaml"; "schemas/fhir_r4/patient.yaml";
             "schemas/fhir_r4/patient_mapping.yaml"]
          ++ [file "README.md"; dir "fhir_r4"; dir "hl7v2"; dir "schema_overrides"]
             ≫= entrySchemas clinicFS "schemas").
Proof.
  split; [|split].
  - apply (proj1 (LoadAll_fhir_absent (NewLoader "schemas") vendor)).
    discriminate.
  - apply (proj1 (proj2 (LoadAll_fhir_absent (NewLoader "sch[emas") bracket))).
    split; reflexivity.
  - exact (proj2 (proj2 (LoadAll_fhir_absent (NewLoader "schemas") clinic))
             _ eq_refl eq_refl).
Defined.

(** Upper-case spellings of an accepted identifier are rejected. *)
Lemma selectGenerator_case_counterexample :
  strings.ToLower "RS" = strings.ToLower "rs" /\
  selectGenerator "rs" = Some Rust /\
  selectGenerator "RS" = None.
Proof. repeat split. Qed.

Lemma corrupt_file_skipped_witness :
  corrupt clinicFS "schemas/fhir_r4/broken.yaml" = true /\
  (LoadAll (NewLoader "schemas") clinic).1
  = (LoadAll (NewLoader "schemas")
       {| w_fs := removeFile clinicFS "schemas/fhir_r4/broken.yaml";
          w_trace := [] |}).1.
Proof.
  assert (corrupt clinicFS "schemas/fhir_r4/broken.yaml" = true) as Hbad
    by reflexivity.
  split; [exact Hbad|].
  exact (proj2 (corrupt_file_skipped (NewLoader "schemas") clinic _ Hbad)).
Defined.

(** With the unknown identifier ["cobol"] the error is returned after four
    file-system calls; and where the schema root is missing, the error
    returned is the load error, which does not mention the identifier. *)
Lemma generateCmd_reads_first_counterexample :
  selectGenerator "cobol" = None /\
  w_trace vendor = [] /\
  (generateCmd (fun _ => idle) "schemas" "./generated" "cobol" vendor).1
    = Some (New "unsupported language: cobol") /\
  w_trace (generateCmd (fun _ => idle) "schemas" "./generated" "cobol" vendor).2
    = [EvStat "schemas/fhir_r4"; EvReadDir "schemas";
       EvGlob "schemas/hl7v2/*.yaml"; EvReadFile "schemas/hl7v2/pid.yaml"] /\
  Error <$> (generateCmd (fun _ => idle) "schemas" "./generated" "cobol" bare).1
    = Some "failed to load schemas: failed to read schema dir: open schemas: no such file or directory".
Proof. repeat split; vm_compute; reflexivity. Qed.

Lemma generateCmd_unsupported_witness :
  selectGenerator "cobol" = None /\
  w_fs (generateCmd (fun _ => idle) "schemas" "./generated" "cobol" vendor).2
    = w_fs vendor /\
  exists err,
    (generateCmd (fun _ => idle) "schemas" "./generated" "cobol" vendor).1 = Some err /\
    Error err = "unsupported language: cobol".
Proof.
  assert (selectGenerator "cobol" = None) as Hnone by reflexivity.
  destruct (generateCmd_unsupported (fun _ => idle) "schemas" "./generated"
              "cobol" vendor Hnone) as (_ & Hfs & _ & Herr).
  split; [exact Hnone|]. split; [exact Hfs|]. exact Herr.
Defined.

End Runs.


(** ** Further properties of the loader *)

Section LoaderOrder.
Import schema.
Context {R : Runtime}.

Lemma decodeFile_stamped fs namespace file s :
  decodeFile fs namespace file = Some s ->
  Schema.Namespace s = namespace /\ Schema.SourceFile s = file /\
  strings.HasSuffix file "_mapping.yaml" = false.
Proof.
  unfold decodeFile.
  destruct (strings.HasSuffix file "_mapping.yaml"); [discriminate|].
  destruct (fs_ReadFile fs file) as [data|]; [|discriminate].
  destruct (yaml_Unmarshal data) as [schema|]; [|discriminate].
  destruct (String.eqb (Schema.GetName schema) EmptyString); [discriminate|].
  by intros [= <-].
Qed.

Lemma dirSchemas_namespace fs dir namespace schemas :
  dirSchemas fs dir namespace = Ok schemas ->
  Forall (fun s => Schema.Namespace s = namespace) schemas.
Proof.
  intros Hdir. apply Forall_forall. intros s Hs.
  destruct (dirSchemas_elem _ _ _ _ _ Hdir Hs) as [file Hfile].
  by apply decodeFile_stamped in Hfile as [? _].
Qed.

Lemma scanned_name entry :
  scanned entry = true ->
  de_Name entry <> "fhir_r4" /\ de_Name entry <> "schema_overrides".
Proof.
  unfold scanned. intros [_ Hname%negb_true_iff]%andb_true_iff.
  apply orb_false_iff in Hname as [Hfhir Hover].
  split; intros Heq; rewrite Heq in *; discriminate.
Qed.

Lemma entrySchemas_namespace fs base (entries : list DirEntry) :
  Forall (fun s => Schema.Namespace s <> "fhir_r4" /\
                   Schema.Namespace s <> "schema_overrides")
         (entries ≫= entrySchemas fs base).
Proof.
  apply Forall_forall. intros s (entry & Hs & _)%list_elem_of_bind.
  revert Hs. unfold entrySchemas.
  destruct (scanned entry) eqn:Hscan; [|by intros ?%elem_of_nil].
  destruct (dirSchemas fs _ (de_Name entry)) as [schemas|] eqn:Hdir;
    [|by intros ?%elem_of_nil].
  intros Hs. apply dirSchemas_namespace in Hdir.
  rewrite Forall_forall in Hdir. rewrite (Hdir s Hs).
  by apply scanned_name.
Qed.

(** X1.  In the list [LoadAll] returns, the schemas of [fhir_r4] come
    first, and no schema after them has the namespace [fhir_r4] or
    [schema_overrides]. *)
Theorem LoadAll_fhir_first l w schemas :
  (LoadAll l w).1 = Ok schemas ->
  exists fhir others,
    schemas = fhir ++ others /\
    Forall (fun s => Schema.Namespace s = "fhir_r4") fhir /\
    Forall (fun s => Schema.Namespace s <> "fhir_r4" /\
                     Schema.Namespace s <> "schema_overrides") others.
Proof.
  rewrite LoadAll_result. unfold loadAllResult, fhirResult.
  destruct (fs_Stat (w_fs w) _).
  - destruct (fs_ReadDir (w_fs w) (baseDir l)) as [entries|]; [|discriminate].
    intros [= <-]. exists [], (entries ≫= entrySchemas (w_fs w) (baseDir l)).
    split; [done|]. split; [constructor | apply entrySchemas_namespace].
  - destruct (dirSchemas (w_fs w) _ "fhir_r4") as [fhir|] eqn:Hfhir; [|discriminate].
    destruct (fs_ReadDir (w_fs w) (baseDir l)) as [entries|]; [|discriminate].
    intros [= <-]. exists fhir, (entries ≫= entrySchemas (w_fs w) (baseDir l)).
    split; [done|].
    split; [by eapply dirSchemas_namespace | apply entrySchemas_namespace].
Qed.

(** X2.  Every schema [LoadAll] returns carries, as [SourceFile], a path
    that does not end in [_mapping.yaml] and whose content deserializes to
    a document with the same name, resource, description and fields. *)
Theorem LoadAll_provenance l w schemas s :
  (LoadAll l w).1 = Ok schemas -> s ∈ schemas ->
  strings.HasSuffix (Schema.SourceFile s) "_mapping.yaml" = false /\
  exists data doc,
    fs_ReadFile (w_fs w) (Schema.SourceFile s) = Ok data /\
    yaml_Unmarshal data = Ok doc /\
    Schema.Name s = Schema.Name doc /\
    Schema.Resource s = Schema.Resource doc /\
    Schema.Description s = Schema.Description doc /\
    Schema.Fields s = Schema.Fields doc.
Proof.
  rewrite LoadAll_result. intros Hload Hs.
  destruct (loadAllResult_elem _ _ _ _ Hload Hs) as (namespace & file & Hfile).
  destruct (decodeFile_stamped _ _ _ _ Hfile) as (_ & Hsrc & Hsuffix).
  apply decodeFile_Some in Hfile as (data & doc & Hread & Hyaml & _ & Hstamp).
  rewrite Hsrc. split; [exact Hsuffix|].
  exists data, doc. by rewrite Hstamp.
Qed.

(** X3.  [LoadAll] fails in two cases only: [fhir_r4] exists and its
    files cannot be enumerated, or the root directory cannot be read.  A
    failure to enumerate any other namespace directory is not an error. *)
Theorem LoadAll_fails_iff l w :
  (exists err, (LoadAll l w).1 = Err err) <->
  (fs_Stat (w_fs w) (filepath_Join (baseDir l) "fhir_r4") = None /\
   exists err, fs_Glob (w_fs w)
                 (filepath_Join (filepath_Join (baseDir l) "fhir_r4") "*.yaml")
               = Err err) \/
  (exists err, fs_ReadDir (w_fs w) (baseDir l) = Err err).
Proof.
  rewrite LoadAll_result. unfold loadAllResult, fhirResult, dirSchemas.
  destruct (fs_Stat (w_fs w) _) as [absent|];
    [|destruct (fs_Glob (w_fs w) _) as [files|bad]];
    destruct (fs_ReadDir (w_fs w) (baseDir l)) as [entries|unreadable];
    (split;
     [ intros [err Herr]; try discriminate Herr; eauto
     | intros [[Hstat [err Herr]]|[err Herr]];
       try discriminate Hstat; try discriminate Herr; eauto ]).
Qed.

(** X4.  [LoadAll] leaves the file system as it was; its first call is
    [os.Stat] on the [fhir_r4] directory, every call it makes is a reading
    call, and it reads no file whose name ends in [_mapping.yaml]. *)
Theorem LoadAll_reads_only l w :
  w_fs (LoadAll l w).2 = w_fs w /\
  exists calls,
    w_trace (LoadAll l w).2
      = w_trace w ++ EvStat (filepath_Join (baseDir l) "fhir_r4") :: calls /\
    forallb reads calls = true /\
    forall file, EvReadFile file ∈ calls ->
                 strings.HasSuffix file "_mapping.yaml" = false.
Proof.
  rewrite LoadAll_run. cbn [fst snd w_fs w_trace]. split; [reflexivity|].
  pose proof (loadAllReads_reads (w_fs w) (baseDir l)) as Hreads.
  unfold loadAllReads in *. eexists. split; [reflexivity|].
  split; [exact Hreads|].
  assert (forall files file,
            EvReadFile file ∈ fileReads files ->
            strings.HasSuffix file "_mapping.yaml" = false) as Hfiles.
  { intros files file. unfold fileReads.
    intros (f & [= <-] & Hf)%list_elem_of_fmap.
    by apply list_elem_of_filter in Hf as [? _]. }
  assert (forall dir file,
            EvReadFile file ∈ dirReads (w_fs w) dir ->
            strings.HasSuffix file "_mapping.yaml" = false) as Hdir.
  { intros dir file. unfold dirReads.
    intros [[=]|Hin]%elem_of_cons.
    destruct (fs_Glob (w_fs w) _); [by eapply Hfiles | by apply elem_of_nil in Hin]. }
  intros file [Hin|Hin]%elem_of_app.
  - destruct (fs_Stat (w_fs w) _); [by apply elem_of_nil in Hin | by eapply Hdir].
  - destruct (fhirResult (w_fs w) (baseDir l)); [|by apply elem_of_nil in Hin].
    apply elem_of_cons in Hin as [[=]|Hin].
    destruct (fs_ReadDir (w_fs w) (baseDir l)); [|by apply elem_of_nil in Hin].
    apply list_elem_of_bind in Hin as (entry & Hin & _).
    unfold entryReads in Hin.
    destruct (scanned entry); [by eapply Hdir | by apply elem_of_nil in Hin].
Qed.

(** X5.  [ListSchemas] fails exactly when [LoadAll] fails, with the same
    error; otherwise it returns one string per loaded schema, in the same
    order, made of the namespace, a slash and the non-empty resolved name. *)
Theorem ListSchemas_entries l w :
  match (LoadAll l w).1 with
  | Err err => (ListSchemas l w).1 = Err err
  | Ok schemas =>
      exists names,
        (ListSchemas l w).1 = Ok names /\
        length names = length schemas /\
        forall i s, schemas !! i = Some s ->
          names !! i = Some (Schema.Namespace s +:+ "/" +:+ Schema.GetName s) /\
          Schema.GetName s <> EmptyString
  end.
Proof.
  unfold ListSchemas. rewrite bind_run.
  destruct (LoadAll l w).1 as [schemas|err] eqn:Hload; [|reflexivity].
  eexists. split; [reflexivity|]. split; [by rewrite length_map|].
  intros i s Hi. split.
  - change (map ?f schemas) with (f <$> schemas).
    by rewrite list_lookup_fmap, Hi.
  - rewrite LoadAll_result in Hload.
    apply list_elem_of_lookup_2 in Hi.
    destruct (loadAllResult_elem _ _ _ _ Hload Hi) as (namespace & file & Hfile).
    by apply decodeFile_Some in Hfile as (data & doc & _ & _ & Hne & ->).
Qed.

End LoaderOrder.

(** ** Properties of the mapping loader *)

Section MappingFacts.
Import schema.
Context {R : Runtime} {M : MappingRuntime}.

Lemma loadMappingVisit_run fs mappings v :
  loadMappingVisit fs mappings v
  = (mappings ++ option_list (visitMapping fs v), None).
Proof.
  unfold loadMappingVisit, visitMapping.
  destruct v as [path d|path d err]; [|by rewrite app_nil_r].
  destruct (de_IsDir d || negb (strings.HasSuffix path "_mapping.yaml"));
    [by rewrite app_nil_r|].
  destruct (fs_ReadFile fs path) as [data|]; [|by rewrite app_nil_r].
  destruct (yaml_UnmarshalMapping data); [done | by rewrite app_nil_r].
Qed.

(** The walk never stops early: it returns what the visits contribute, in
    order, and no error. *)
Lemma walkVisits_run fs visits mappings :
  walkVisits (loadMappingVisit fs) visits mappings
  = (mappings ++ omap (visitMapping fs) visits, None).
Proof.
  revert mappings. induction visits as [|v visits IH]; intros mappings.
  - by rewrite app_nil_r.
  - cbn [walkVisits]. rewrite loadMappingVisit_run, IH. cbn [omap list_omap].
    destruct (visitMapping fs v); cbn; by rewrite <- ?app_assoc, ?app_nil_r.
Qed.

Lemma visitMapping_Some fs v m :
  visitMapping fs v = Some m <->
  exists path d data mapping,
    v = Entered path d /\ de_IsDir d = false /\
    strings.HasSuffix path "_mapping.yaml" = true /\
    fs_ReadFile fs path = Ok data /\
    yaml_UnmarshalMapping data = Ok mapping /\
    m = stampMapping mapping path.
Proof.
  split.
  - destruct v as [path d|path d err]; [|discriminate]. cbn.
    destruct (de_IsDir d) eqn:Hdir; [discriminate|].
    destruct (strings.HasSuffix path "_mapping.yaml") eqn:Hsuffix; [|discriminate].
    cbn. destruct (fs_ReadFile fs path) as [data|] eqn:Hread; [|discriminate].
    destruct (yaml_UnmarshalMapping data) as [mapping|] eqn:Hyaml; [|discriminate].
    intros [= <-]. by exists path, d, data, mapping.
  - intros (path & d & data & mapping & -> & Hdir & Hsuffix & Hread & Hyaml & ->).
    cbn. by rewrite Hdir, Hsuffix, Hread, Hyaml.
Qed.

(** X6.  [LoadMappings] never returns an error: a visit that reports an
    error, a file that cannot be read and a document that does not
    deserialize are all passed over. *)
Theorem LoadMappings_never_fails l fs :
  (LoadMappings l fs).2 = None.
Proof.
  unfold LoadMappings, filepath_WalkDir. by rewrite walkVisits_run.
Qed.

(** X7.  [LoadMappings] returns exactly the mappings of the visited
    entries that are not directories, whose path ends in [_mapping.yaml],
    that can be read and that deserialize, each with the path as
    [SourceFile]; the directory the file is in plays no part. *)
Theorem LoadMappings_elem l fs m :
  m ∈ (LoadMappings l fs).1 <->
  exists path d data mapping,
    Entered path d ∈ walk_visits (baseDir l) /\
    de_IsDir d = false /\
    strings.HasSuffix path "_mapping.yaml" = true /\
    fs_ReadFile fs path = Ok data /\
    yaml_UnmarshalMapping data = Ok mapping /\
    m = stampMapping mapping path.
Proof.
  unfold LoadMappings, filepath_WalkDir. rewrite walkVisits_run. cbn [fst app].
  rewrite list_elem_of_omap. split.
  - intros (v & Hv & Hm). apply visitMapping_Some in Hm
      as (path & d & data & mapping & -> & ?). by exists path, d, data, mapping.
  - intros (path & d & data & mapping & Hv & Hrest).
    exists (Entered path d). split; [exact Hv|].
    apply visitMapping_Some. by exists path, d, data, mapping.
Qed.

(** X8.  No file is the source of both a schema returned by [LoadAll] and a
    mapping returned by [LoadMappings]. *)
Theorem schema_and_mapping_sources_differ l l' w schemas s m :
  (LoadAll l w).1 = Ok schemas -> s ∈ schemas ->
  m ∈ (LoadMappings l' (w_fs w)).1 ->
  Schema.SourceFile s <> SchemaMapping.SourceFile m.
Proof.
  rewrite LoadAll_result. intros Hload Hs Hm Heq.
  destruct (loadAllResult_elem _ _ _ _ Hload Hs) as (namespace & file & Hfile).
  assert (strings.HasSuffix (Schema.SourceFile s) "_mapping.yaml" = false) as Hno.
  { revert Hfile. unfold decodeFile.
    destruct (strings.HasSuffix file "_mapping.yaml") eqn:Hsuffix; [discriminate|].
    destruct (fs_ReadFile (w_fs w) file) as [data|]; [|discriminate].
    destruct (yaml_Unmarshal data) as [doc|]; [|discriminate].
    destruct (String.eqb (Schema.GetName doc) EmptyString); [discriminate|].
    by intros [= <-]. }
  unfold LoadMappings, filepath_WalkDir in Hm. rewrite walkVisits_run in Hm.
  apply list_elem_of_omap in Hm as (v & _ & Hv).
  apply visitMapping_Some in Hv as (path & d & data & mapping & _ & _ & Hyes & _ & _ & ->).
  cbn in Heq. congruence.
Qed.

End MappingFacts.

(** ** Properties of the case conversion and of the rendered text *)

Section TextFacts.
Import schema strings python.

Lemma lower_ascii_not_upper c : is_upper (lower_ascii c) = false.
Proof. by destruct c as [[] [] [] [] [] [] [] []]. Qed.

Lemma lower_ascii_id c : is_upper c = false -> lower_ascii c = c.
Proof. unfold is_upper, lower_ascii. cbn zeta. by intros ->. Qed.

Lemma lower_ascii_range c :
  (nat_of_ascii c <? 128) = true -> (nat_of_ascii (lower_ascii c) <? 128) = true.
Proof. by destruct c as [[] [] [] [] [] [] [] []]. Qed.

Lemma ToLower_uppers s : uppers (ToLower s) = 0.
Proof.
  induction s as [|c s IH]; [done|].
  cbn [ToLower uppers]. by rewrite lower_ascii_not_upper, IH.
Qed.

Lemma ToLower_id s : uppers s = 0 -> ToLower s = s.
Proof.
  induction s as [|c s IH]; [done|]. cbn [ToLower uppers].
  destruct (is_upper c) eqn:Hc; [discriminate|].
  intros Hs. by rewrite lower_ascii_id, IH.
Qed.

Lemma ToLower_length s : String.length (ToLower s) = String.length s.
Proof. induction s as [|c s IH]; [done|]. cbn. by rewrite IH. Qed.

Lemma ToLower_ascii_only s : ascii_only s = true -> ascii_only (ToLower s) = true.
Proof.
  induction s as [|c s IH]; [done|]. cbn [ToLower ascii_only].
  intros [Hc Hs]%andb_true_iff. by rewrite lower_ascii_range, IH.
Qed.

Lemma snakeFrom_id i s : uppers s = 0 -> snakeFrom i s = s.
Proof.
  revert i. induction s as [|c s IH]; intros i; [done|]. cbn [snakeFrom uppers].
  destruct (is_upper c); [discriminate|].
  intros Hs. by rewrite andb_false_r, IH.
Qed.

Lemma snakeFrom_length i s :
  String.length (snakeFrom (S i) s) = String.length s + uppers s.
Proof.
  revert i. induction s as [|c s IH]; intros i; [done|].
  cbn [snakeFrom uppers Nat.ltb Nat.leb andb].
  destruct (is_upper c); cbn [String.length]; rewrite IH; lia.
Qed.

Lemma snakeFrom_ascii_only i s :
  ascii_only s = true -> ascii_only (snakeFrom i s) = true.
Proof.
  revert i. induction s as [|c s IH]; intros i; [done|]. cbn [snakeFrom ascii_only].
  intros [Hc Hs]%andb_true_iff.
  destruct ((0 <? i) && is_upper c); cbn [ascii_only]; by rewrite ?Hc, IH.
Qed.

(** X9.  On ASCII text, [toSnakeCase] returns ASCII text without
    upper-case letters. *)
Theorem toSnakeCase_lower s :
  ascii_only s = true ->
  uppers (toSnakeCase s) = 0 /\ ascii_only (toSnakeCase s) = true.
Proof.
  intros Hs. unfold toSnakeCase. split; [apply ToLower_uppers|].
  by apply ToLower_ascii_only, snakeFrom_ascii_only.
Qed.

Lemma toSnakeCase_lower_witness :
  ascii_only "birthDate" = true /\ toSnakeCase "birthDate" = "birth_date" /\
  uppers (toSnakeCase "birthDate") = 0.
Proof.
  assert (ascii_only "birthDate" = true) as Hs by reflexivity.
  split; [exact Hs|]. split; [reflexivity|].
  exact (proj1 (toSnakeCase_lower "birthDate" Hs)).
Defined.

(** X10.  On ASCII text, converting twice gives what converting once
    gives; text without upper-case letters is returned as it is. *)
Theorem toSnakeCase_idempotent s :
  ascii_only s = true ->
  toSnakeCase (toSnakeCase s) = toSnakeCase s /\
  (uppers s = 0 -> toSnakeCase s = s).
Proof.
  intros _.
  assert (forall t, uppers t = 0 -> toSnakeCase t = t) as Hfix.
  { intros t Ht. unfold toSnakeCase. by rewrite snakeFrom_id, ToLower_id. }
  split; [|apply Hfix].
  apply Hfix. unfold toSnakeCase. apply ToLower_uppers.
Qed.

Lemma toSnakeCase_idempotent_witness :
  toSnakeCase (toSnakeCase "patientID") = toSnakeCase "patientID" /\
  toSnakeCase "patient_i_d" = "patient_i_d".
Proof.
  destruct (toSnakeCase_idempotent "patientID" eq_refl) as [Htwice _].
  destruct (toSnakeCase_idempotent "patient_i_d" eq_refl) as [_ Hkeep].
  split; [exact Htwice | apply Hkeep; reflexivity].
Defined.

(** X11.  On ASCII text, [toSnakeCase] lengthens the text by one
    character for each upper-case letter after the first character. *)
Theorem toSnakeCase_length s :
  ascii_only s = true ->
  String.length (toSnakeCase s) = String.length s + uppers (tail s).
Proof.
  intros _. unfold toSnakeCase. rewrite ToLower_length.
  destruct s as [|c s]; [done|].
  cbn [snakeFrom Nat.ltb Nat.leb andb tail String.length].
  by rewrite snakeFrom_length.
Qed.

Lemma toSnakeCase_length_witness :
  String.length (toSnakeCase "PatientID") = 9 + 2.
Proof. exact (toSnakeCase_length "PatientID" eq_refl). Defined.

Lemma scalarType_name yamlType py :
  scalarType yamlType = Some py -> py ∈ pythonNames.
Proof.
  unfold scalarType, pythonNames.
  repeat match goal with
         | |- context [if case_of yamlType ?labels then _ else _] =>
             destruct (case_of yamlType labels);
             [intros [= <-]; apply list_elem_of_In; cbn; tauto|]
         end.
  discriminate.
Qed.

Lemma toPythonType_shape_bounded n :
  forall yamlType, String.length yamlType <= n ->
    exists depth core,
      yamlType = collectionOf depth core /\
      HasPrefix core "[]" = false /\
      toPythonType core ∈ pythonNames /\
      toPythonType yamlType = listOf depth (toPythonType core).
Proof.
  induction n as [|n IH]; intros yamlType Hlen.
  - destruct yamlType; [|cbn in Hlen; lia].
    exists 0, EmptyString. repeat split. apply list_elem_of_In. cbn. tauto.
  - destruct (HasPrefix yamlType "[]") eqn:Hprefix.
    + apply HasPrefix_marker in Hprefix as [inner ->].
      destruct (IH inner) as (depth & core & Hinner & Hcore & Hname & Htype).
      { change (S (S (String.length inner)) <= S n) in Hlen. lia. }
      exists (S depth), core. cbn [collectionOf listOf].
      rewrite toPythonType_marker, Htype, <- Hinner. by repeat split.
    + exists 0, yamlType. cbn [collectionOf listOf]. repeat split; [done|].
      rewrite toPythonType_unfold, Hprefix.
      destruct (scalarType yamlType) as [py|] eqn:Hscalar.
      * by eapply scalarType_name.
      * apply list_elem_of_In. cbn. tauto.
Qed.

(** X12.  Every token is some number of collection markers in front of a
    core that does not start with a marker, and its Python type is that
    many [list[...]] around one of the eight type names, the one the core
    maps to. *)
Theorem toPythonType_shape yamlType :
  exists depth core,
    yamlType = collectionOf depth core /\
    HasPrefix core "[]" = false /\
    toPythonType core ∈ pythonNames /\
    toPythonType yamlType = listOf depth (toPythonType core).
Proof. by apply (toPythonType_shape_bounded (String.length yamlType)). Qed.

Lemma renderField_rendered f f' :
  rendered f = rendered f' -> renderField f = renderField f'.
Proof.
  unfold rendered, renderField. by intros [= -> -> -> ->].
Qed.

Lemma renderFields_rendered (fs fs' : list Field.t) :
  map rendered fs = map rendered fs' -> map renderField fs = map renderField fs'.
Proof.
  revert fs'. induction fs as [|f fs IH]; intros [|f' fs']; try discriminate; [done|].
  cbn [map]. intros Heq.
  assert (rendered f = rendered f') as Hf by congruence.
  assert (map rendered fs = map rendered fs') as Hfs by congruence.
  by rewrite (renderField_rendered _ _ Hf), (IH _ Hfs).
Qed.

(** X13.  The text rendered for a schema depends on its resolved name, its
    description and, for each of its fields, the name, type, required flag
    and description only: children of fields and PII levels are not
    rendered. *)
Theorem renderSchema_frame (s s' : Schema.t) :
  Schema.GetName s = Schema.GetName s' ->
  Schema.Description s = Schema.Description s' ->
  map rendered (Schema.Fields s) = map rendered (Schema.Fields s') ->
  renderSchema s = renderSchema s'.
Proof.
  intros Hname Hdesc Hfields. unfold renderSchema, schemaName.
  by rewrite Hname, Hdesc, (renderFields_rendered _ _ Hfields).
Qed.

End TextFacts.

(** ** Properties of the Python generator's run *)

Section GeneratorFacts.
Import schema python.
Context {R : Runtime} {O : Output}.

Ltac run_eq :=
  unfold mret, IO_ret, log; cbn;
  rewrite <- ?app_assoc; cbn; rewrite ?app_nil_r; reflexivity.

Lemma io_bind_run {A B} (m : IO A) (k : A -> IO B) (w : World) :
  (m ≫= k) w = k (m w).1 (m w).2.
Proof. unfold mbind, IO_bind. by destruct (m w). Qed.

(** *** Runs in which every call succeeds *)

Section AllSucceed.
Hypothesis mkdir_ok : forall path, out_MkdirAll path = None.
Hypothesis create_ok : forall name, out_Create name = None.
Hypothesis execute_ok : forall name text, out_Execute name text = None.

Lemma executeTemplate_ok text path w :
  executeTemplate text path w
  = (None, {| w_fs := w_fs w;
              w_trace := w_trace w ++ [EvCreate path; EvWrite path text] |}).
Proof.
  unfold executeTemplate. rewrite io_bind_run.
  cbn [os_Create fst snd]. rewrite create_ok.
  unfold tmpl_Execute. rewrite execute_ok. run_eq.
Qed.

Lemma generateSchemas_ok nsDir nsSchemas w :
  generateSchemas nsDir nsSchemas w
  = (None,
     {| w_fs := w_fs w;
        w_trace := w_trace w ++
          (nsSchemas ≫= fun s =>
             let path := filepath_Join nsDir
                           (strings.ToLower (Schema.GetName s) +:+ ".py") in
             [EvCreate path; EvWrite path (renderSchema s)]) |}).
Proof.
  revert w. induction nsSchemas as [|s rest IH]; intros w.
  - cbn. rewrite app_nil_r. by destruct w.
  - cbn [generateSchemas]. rewrite io_bind_run. unfold generateSchema.
    rewrite executeTemplate_ok. cbn [fst snd]. rewrite IH. run_eq.
Qed.

Lemma generateNamespaces_ok outputDir groups w :
  generateNamespaces outputDir groups w
  = (None,
     {| w_fs := w_fs w;
        w_trace := w_trace w ++ groups ≫= namespaceCalls outputDir |}).
Proof.
  revert w. induction groups as [|[namespace nsSchemas] rest IH]; intros w.
  - cbn. rewrite app_nil_r. by destruct w.
  - cbn [generateNamespaces]. rewrite io_bind_run.
    cbn [os_MkdirAll fst snd]. rewrite mkdir_ok.
    rewrite io_bind_run. unfold generateInit. rewrite executeTemplate_ok.
    cbn [fst snd]. rewrite io_bind_run, generateSchemas_ok. cbn [fst snd].
    rewrite IH. unfold namespaceCalls at 2. run_eq.
Qed.

Lemma Generate_ok schemas outputDir w :
  Generate schemas outputDir w
  = (None,
     {| w_fs := w_fs w;
        w_trace := w_trace w ++
          range_order (groupByNamespace schemas) ≫= namespaceCalls outputDir |}).
Proof. apply generateNamespaces_ok. Qed.
End AllSucceed.

Lemma createCalls_app calls calls' :
  createCalls (calls ++ calls') = createCalls calls ++ createCalls calls'.
Proof. apply omap_app. Qed.

Lemma createCalls_namespaceCalls outputDir (group : string * list Schema.t) :
  length (createCalls (namespaceCalls outputDir group)) = S (length group.2).
Proof.
  unfold namespaceCalls. cbn [createCalls omap list_omap length]. f_equal.
  induction group.2 as [|s rest IH]; [done|].
  cbn [mbind list_bind app createCalls omap list_omap length]. by rewrite <- IH.
Qed.

Lemma createCalls_groups outputDir (groups : list (string * list Schema.t)) :
  length (createCalls (groups ≫= namespaceCalls outputDir))
  = length groups + sum_list_with (fun group => length group.2) groups.
Proof.
  induction groups as [|group rest IH]; [done|].
  cbn [mbind list_bind sum_list_with length].
  rewrite createCalls_app, length_app, createCalls_namespaceCalls, IH. lia.
Qed.

(** Adding a schema to its group adds one to the total of the group
    sizes. *)
Lemma group_sizes_insert (m : gmap string (list Schema.t)) s :
  sum_list_with (fun group : string * list Schema.t => length group.2)
    (map_to_list (<[Schema.Namespace s :=
                      default [] (m !! Schema.Namespace s) ++ [s]]> m))
  = S (sum_list_with (fun group : string * list Schema.t => length group.2)
         (map_to_list m)).
Proof.
  destruct (m !! Schema.Namespace s) as [old|] eqn:Hold; cbn [default].
  - rewrite <- insert_delete_eq.
    rewrite map_to_list_insert by apply lookup_delete_eq.
    rewrite <- (map_to_list_delete m _ _ Hold).
    cbn [sum_list_with snd]. rewrite length_app. cbn. lia.
  - rewrite map_to_list_insert by done. reflexivity.
Qed.

Lemma group_sizes schemas :
  sum_list_with (fun group : string * list Schema.t => length group.2)
    (map_to_list (groupByNamespace schemas))
  = length schemas.
Proof.
  unfold groupByNamespace.
  induction schemas as [|s schemas IH] using rev_ind.
  - cbn [foldl]. by rewrite map_to_list_empty.
  - rewrite foldl_snoc, group_sizes_insert, IH, length_app. cbn. lia.
Qed.

Lemma groupByNamespace_elem schemas s :
  s ∈ schemas ->
  exists group,
    groupByNamespace schemas !! Schema.Namespace s = Some group /\ s ∈ group.
Proof.
  unfold groupByNamespace.
  induction schemas as [|s' schemas IH] using rev_ind; [by intros ?%elem_of_nil|].
  rewrite foldl_snoc. intros [Hin|Hin%list_elem_of_singleton]%elem_of_app.
  - destruct (IH Hin) as (group & Hgroup & Hs).
    destruct (decide (Schema.Namespace s' = Schema.Namespace s)) as [Heq|Hne].
    + rewrite Heq, lookup_insert_eq, Hgroup. eexists. split; [done|].
      apply elem_of_app. by left.
    + rewrite lookup_insert_ne by done. eauto.
  - subst s'. rewrite lookup_insert_eq. eexists. split; [done|].
    apply elem_of_app. right. by apply list_elem_of_singleton.
Qed.

(** X14.  For an empty list of schemas [Generate] makes no call and
    returns [nil]. *)
Theorem Generate_nothing outputDir w :
  Generate [] outputDir w = (None, w).
Proof.
  unfold Generate. cbn [groupByNamespace foldl].
  pose proof (range_perm (∅ : gmap string (list Schema.t))) as Hperm.
  rewrite map_to_list_empty in Hperm. apply Permutation_nil_r in Hperm.
  by rewrite Hperm.
Qed.

(** X15.  For schemas whose names and field names are ASCII text, when no
    call fails, [Generate] returns [nil] and its calls are, for each
    namespace group in the order of the [range]: the directory of the
    namespace, [__init__.py] created and written with the index of the
    group, then one file created and written for each schema of the group,
    in order. *)
Theorem Generate_units schemas outputDir w :
  forallb asciiNames schemas = true ->
  (forall path, out_MkdirAll path = None) ->
  (forall name, out_Create name = None) ->
  (forall name text, out_Execute name text = None) ->
  (Generate schemas outputDir w).1 = None /\
  w_trace (Generate schemas outputDir w).2
  = w_trace w ++
    range_order (groupByNamespace schemas) ≫= namespaceCalls outputDir.
Proof. intros _ Hmkdir Hcreate Hexecute. by rewrite Generate_ok. Qed.

(** X16.  When no call fails, [Generate] calls [os.Create] once for the
    index of each namespace and once for each schema: the number of these
    calls is the number of namespaces among the schemas plus the number of
    schemas.  Calls are counted, not files: two schemas of one namespace
    with the same file name make two calls on one file. *)
Theorem Generate_create_count schemas outputDir w :
  (forall path, out_MkdirAll path = None) ->
  (forall name, out_Create name = None) ->
  (forall name text, out_Execute name text = None) ->
  exists calls,
    w_trace (Generate schemas outputDir w).2 = w_trace w ++ calls /\
    length (createCalls calls)
    = size (groupByNamespace schemas) + length schemas.
Proof.
  intros Hmkdir Hcreate Hexecute. rewrite Generate_ok by done.
  eexists. split; [reflexivity|].
  rewrite createCalls_groups.
  rewrite (Permutation_length (range_perm _)), length_map_to_list.
  by rewrite (range_perm _), group_sizes.
Qed.

(** X17.  When no call fails, every schema passed to [Generate] whose name
    and field names are ASCII text has its file created and written: the
    file named after the lower-cased resolved name, in the directory of the
    schema's namespace, with the text rendered from the schema. *)
Theorem Generate_every_schema schemas outputDir w s :
  asciiNames s = true ->
  (forall path, out_MkdirAll path = None) ->
  (forall name, out_Create name = None) ->
  (forall name text, out_Execute name text = None) ->
  s ∈ schemas ->
  let path := filepath_Join (filepath_Join outputDir (Schema.Namespace s))
                (strings.ToLower (Schema.GetName s) +:+ ".py") in
  EvCreate path ∈ w_trace (Generate schemas outputDir w).2 /\
  EvWrite path (renderSchema s) ∈ w_trace (Generate schemas outputDir w).2.
Proof.
  intros _ Hmkdir Hcreate Hexecute Hs path. rewrite Generate_ok by done.
  cbn [snd w_trace].
  destruct (groupByNamespace_elem _ _ Hs) as (group & Hgroup & Hin).
  assert ((Schema.Namespace s, group) ∈ range_order (groupByNamespace schemas))
    as Hrange by (rewrite (range_perm _); by apply elem_of_map_to_list).
  assert (forall ev,
            ev ∈ [EvCreate path; EvWrite path (renderSchema s)] ->
            ev ∈ range_order (groupByNamespace schemas) ≫= namespaceCalls outputDir)
    as Hcalls.
  { intros ev Hev. apply list_elem_of_bind.
    exists (Schema.Namespace s, group). split; [|exact Hrange].
    unfold namespaceCalls. cbn [fst snd].
    do 3 apply list_elem_of_further.
    apply list_elem_of_bind. by exists s. }
  split; apply elem_of_app; right; apply Hcalls;
    apply list_elem_of_In; cbn; tauto.
Qed.

(** *** Runs in which a call may fail *)

Lemma stops_ret : stopsAtFailure (mret None).
Proof.
  intros w. exists []. cbn. by rewrite app_nil_r.
Qed.

Lemma stops_call (result : option error) (ev : Event) :
  succeeded ev = bool_decide (result = None) ->
  stopsAtFailure (fun w => (result, log ev w)).
Proof.
  intros Hev w. exists [ev]. split; [reflexivity|]. cbn [fst].
  destruct result as [err|].
  - exists [], ev. rewrite Hev. by repeat split.
  - cbn. by rewrite Hev.
Qed.

Lemma stops_bind (m k : IO (option error)) (f : error -> error) :
  stopsAtFailure m -> stopsAtFailure k ->
  stopsAtFailure (e ← m;
                  match e with
                  | Some err => mret (Some (f err))
                  | None => k
                  end).
Proof.
  intros Hm Hk w. rewrite io_bind_run.
  destruct (Hm w) as (calls & Hw & Hresult).
  destruct (m w).1 as [err|].
  - exists calls. split; [exact Hw | exact Hresult].
  - destruct (Hk (m w).2) as (calls' & Hw' & Hresult').
    exists (calls ++ calls'). split.
    + by rewrite Hw', Hw, app_assoc.
    + destruct (k (m w).2).1 as [err|].
      * destruct Hresult' as (before & ev & -> & Hbefore & Hev).
        exists (calls ++ before), ev. rewrite app_assoc, forallb_app, Hresult, Hbefore.
        by repeat split.
      * by rewrite forallb_app, Hresult, Hresult'.
Qed.

Lemma stops_executeTemplate text path :
  stopsAtFailure (executeTemplate text path).
Proof.
  apply (stops_bind _ _ (Wrap "failed to create file")); by apply stops_call.
Qed.

Lemma stops_generateSchemas nsDir nsSchemas :
  stopsAtFailure (generateSchemas nsDir nsSchemas).
Proof.
  induction nsSchemas as [|s rest IH]; [apply stops_ret|].
  apply (stops_bind _ _ (fun err => err)); [apply stops_executeTemplate | exact IH].
Qed.

Lemma stops_generateNamespaces outputDir groups :
  stopsAtFailure (generateNamespaces outputDir groups).
Proof.
  induction groups as [|[namespace nsSchemas] rest IH]; [apply stops_ret|].
  apply (stops_bind _ _ (Wrap "failed to create directory")); [by apply stops_call|].
  apply (stops_bind _ _ (fun err => err)); [apply stops_executeTemplate|].
  apply (stops_bind _ _ (fun err => err)); [apply stops_generateSchemas | exact IH].
Qed.

(** X18.  [Generate] stops at the first call that fails: when it returns
    [nil] every call it made succeeded, and when it returns an error the
    last call it made is the only one that failed. *)
Theorem Generate_stops_at_first_failure schemas outputDir w :
  exists calls,
    w_trace (Generate schemas outputDir w).2 = w_trace w ++ calls /\
    match (Generate schemas outputDir w).1 with
    | None => forallb succeeded calls = true
    | Some _ =>
        exists before ev,
          calls = before ++ [ev] /\
          forallb succeeded before = true /\ succeeded ev = false
    end.
Proof. apply stops_generateNamespaces. Qed.

Lemma executeTemplate_error text path w err :
  (executeTemplate text path w).1 = Some err -> outputError err.
Proof.
  unfold executeTemplate. rewrite io_bind_run. cbn [os_Create fst snd].
  destruct (out_Create path) as [cause|] eqn:Hcreate.
  - intros [= <-]. right. left. by exists path, cause.
  - cbn [tmpl_Execute fst]. intros Hexecute. right. right. by exists path, text.
Qed.

Lemma generateSchemas_error nsDir nsSchemas w err :
  (generateSchemas nsDir nsSchemas w).1 = Some err -> outputError err.
Proof.
  revert w. induction nsSchemas as [|s rest IH]; intros w; [discriminate|].
  cbn [generateSchemas]. rewrite io_bind_run. unfold generateSchema.
  destruct (executeTemplate _ _ w).1 as [err'|] eqn:Hfile.
  - intros [= <-]. by eapply executeTemplate_error.
  - apply IH.
Qed.

Lemma generateNamespaces_error outputDir groups w err :
  (generateNamespaces outputDir groups w).1 = Some err -> outputError err.
Proof.
  revert w. induction groups as [|[namespace nsSchemas] rest IH]; intros w;
    [discriminate|].
  cbn [generateNamespaces]. rewrite io_bind_run. cbn [os_MkdirAll fst snd].
  destruct (out_MkdirAll _) as [cause|] eqn:Hmkdir.
  - intros [= <-]. left. eauto.
  - rewrite io_bind_run. unfold generateInit.
    destruct (executeTemplate _ _ _).1 as [err'|] eqn:Hinit.
    + intros [= <-]. by eapply executeTemplate_error.
    + rewrite io_bind_run.
      destruct (generateSchemas _ _ _).1 as [err'|] eqn:Hfiles.
      * intros [= <-]. by eapply generateSchemas_error.
      * apply IH.
Qed.

(** X21.  An error returned by [Generate] is the error of a failed
    [os.MkdirAll] under ["failed to create directory"], the error of a
    failed [os.Create] under ["failed to create file"], or the error of a
    failed template execution as it is. *)
Theorem Generate_error_shapes schemas outputDir w err :
  (Generate schemas outputDir w).1 = Some err ->
  (exists path cause,
     out_MkdirAll path = Some cause /\
     err = Wrap "failed to create directory" cause) \/
  (exists name cause,
     out_Create name = Some cause /\ err = Wrap "failed to create file" cause) \/
  (exists name text, out_Execute name text = Some err).
Proof. apply generateNamespaces_error. Qed.

End GeneratorFacts.

(** ** Properties of the commands *)

Section CommandFacts.
Import schema main.
Context {R : Runtime}.

Lemma cmd_bind_run {A B} (m : IO A) (k : A -> IO B) (w : World) :
  (m ≫= k) w = k (m w).1 (m w).2.
Proof. unfold mbind, IO_bind. by destruct (m w). Qed.

(** X19.  The [generate] command returns [nil] exactly when the schemas
    load, the language identifier selects a generator and that generator's
    [Generate] returns [nil]; it then prints the closing message as its last
    call.  In every other case it prints nothing of its own: it returns the
    load error under ["failed to load schemas"] or the unsupported-language
    error in the world the loader left, or the generator's error under
    ["failed to generate code"] in the world the generator left. *)
Theorem generateCmd_outcome (NewGenerator : Language -> Generator)
    (schemaDir outputDir language : string) (w : World) :
  let run := generateCmd NewGenerator schemaDir outputDir language w in
  let load := LoadAll (NewLoader schemaDir) w in
  (run.1 = None <->
   exists schemas k,
     load.1 = Ok schemas /\ selectGenerator language = Some k /\
     (Generate (NewGenerator k) schemas outputDir load.2).1 = None) /\
  (forall schemas k,
     load.1 = Ok schemas -> selectGenerator language = Some k ->
     let gen := Generate (NewGenerator k) schemas outputDir load.2 in
     match gen.1 with
     | None =>
         run.2 = log (EvPrintf ("Generated " +:+ language +:+ " code in "
                                +:+ outputDir +:+ newline)) gen.2
     | Some err =>
         run = (Some (Wrap "failed to generate code" err), gen.2)
     end) /\
  (forall cause,
     load.1 = Err cause ->
     run = (Some (Wrap "failed to load schemas" cause), load.2)) /\
  (forall schemas,
     load.1 = Ok schemas -> selectGenerator language = None ->
     run = (Some (New ("unsupported language: " +:+ language)), load.2)).
Proof.
  cbn zeta. unfold generateCmd. rewrite cmd_bind_run.
  destruct (LoadAll (NewLoader schemaDir) w).1 as [schemas|cause].
  - destruct (selectGenerator language) as [k|].
    + rewrite cmd_bind_run.
      destruct (Generate (NewGenerator k) schemas outputDir _).1 as [err|] eqn:Hgen.
      * split; [|split; [|split]].
        -- split; [discriminate|]. intros (schemas' & k' & [= <-] & [= <-] & Hnil).
           rewrite Hgen in Hnil. discriminate.
        -- intros schemas' k' [= <-] [= <-]. by rewrite Hgen.
        -- discriminate.
        -- discriminate.
      * split; [|split; [|split]].
        -- split; [|done]. intros _. by exists schemas, k.
        -- intros schemas' k' [= <-] [= <-]. rewrite Hgen.
           rewrite cmd_bind_run. reflexivity.
        -- discriminate.
        -- discriminate.
    + split; [|split; [|split]].
      * split; [discriminate|]. by intros (schemas' & k' & _ & [=] & _).
      * discriminate.
      * discriminate.
      * reflexivity.
  - split; [|split; [|split]].
    + split; [discriminate|]. by intros (schemas' & k' & [=] & _).
    + discriminate.
    + by intros cause' [= <-].
    + discriminate.
Qed.

Lemma printSchemas_run (names : list string) w :
  printSchemas names w
  = (tt, {| w_fs := w_fs w;
            w_trace := w_trace w ++
              map (fun name => EvPrintf ("  - " +:+ name +:+ newline)) names |}).
Proof.
  revert w. induction names as [|name names IH]; intros w.
  - cbn. rewrite app_nil_r. by destruct w.
  - cbn [printSchemas]. rewrite cmd_bind_run. cbn [fmt_Printf fst snd].
    rewrite IH. unfold log. cbn. by rewrite <- app_assoc.
Qed.

(** X20.  The [list] command prints nothing when loading fails and
    returns the load error under ["failed to list schemas"]; when loading
    succeeds it returns [nil] after printing the heading and one line per
    loaded schema, in load order, and it makes no call besides the
    loader's reads and these prints. *)
Theorem listCmd_outcome schemaDir w :
  let load := LoadAll (NewLoader schemaDir) w in
  match load.1 with
  | Err cause =>
      listCmd schemaDir w = (Some (Wrap "failed to list schemas" cause), load.2)
  | Ok schemas =>
      listCmd schemaDir w
      = (None,
         {| w_fs := w_fs w;
            w_trace := w_trace load.2
              ++ EvPrintf ("Available schemas:" +:+ newline)
              :: map (fun s => EvPrintf ("  - "
                                         +:+ (Schema.Namespace s +:+ "/"
                                              +:+ Schema.GetName s)
                                         +:+ newline))
                     schemas |})
  end.
Proof.
  cbn zeta. unfold listCmd, ListSchemas. rewrite !cmd_bind_run.
  rewrite LoadAll_run. cbn [fst snd].
  destruct (loadAllResult (w_fs w) (baseDir (NewLoader schemaDir))) as [schemas|cause];
    [|reflexivity].
  cbn [mret IO_ret fst snd]. rewrite !cmd_bind_run.
  cbn [fmt_Println fmt_Printf fst snd]. rewrite printSchemas_run.
  unfold log, mret, IO_ret. cbn [fst snd w_fs w_trace].
  by rewrite map_map, <- app_assoc.
Qed.

End CommandFacts.

(** ** Further runs on the test trees *)

Section MoreRuns.
Import schema main python fixtures.
#[local] Existing Instance slashRuntime.
#[local] Existing Instance quiet.

Example LoadMappings_etl :
  map SchemaMapping.SourceFile (LoadMappings (M:=etlWalk) (NewLoader "schemas") etlFS).1
  = ["schemas/epic_clarity/patient_mapping.yaml";
     "schemas/schema_overrides/epic_clarity/patient_mapping.yaml"].
Proof. vm_compute. reflexivity. Qed.

Example toSnakeCase_names :
  map toSnakeCase ["birthDate"; "Patient"; "patientID"; "a_b"; "aB"]
  = ["birth_date"; "patient"; "patient_i_d"; "a_b"; "a_b"].
Proof. reflexivity. Qed.

Example renderSchema_contact :
  renderSchema (contact "high" [valueField])
  = docquote +:+ "A contact" +:+ docquote +:+ newline +:+ newline
    +:+ "from __future__ import annotations" +:+ newline +:+ newline
    +:+ "from dataclasses import dataclass" +:+ newline
    +:+ "from datetime import date, datetime" +:+ newline
    +:+ "from typing import Any" +:+ newline +:+ newline +:+ newline
    +:+ "@dataclass" +:+ newline
    +:+ "class Contact:" +:+ newline
    +:+ "    " +:+ docquote +:+ "A contact" +:+ docquote +:+ newline
    +:+ newline
    +:+ "    telecom: list[Any] | None = None  # Contact details" +:+ newline
    +:+ newline.
Proof. vm_compute. reflexivity. Qed.

Example Generate_readonly :
  (Generate (O:=readonly) [patient; pid] "out" clinic).1
  = Some (Wrap "failed to create directory"
               (New "mkdir out/fhir_r4: read-only file system")).
Proof. vm_compute. reflexivity. Qed.

Lemma LoadAll_fhir_first_witness :
  exists fhir others,
    [patient; pid] = fhir ++ others /\
    Forall (fun s => Schema.Namespace s = "fhir_r4") fhir /\
    Forall (fun s => Schema.Namespace s <> "fhir_r4" /\
                     Schema.Namespace s <> "schema_overrides") others.
Proof.
  apply (LoadAll_fhir_first (NewLoader "schemas") clinic).
  vm_compute. reflexivity.
Defined.

Lemma LoadAll_provenance_witness :
  strings.HasSuffix (Schema.SourceFile pid) "_mapping.yaml" = false /\
  exists data doc,
    fs_ReadFile (w_fs clinic) (Schema.SourceFile pid) = Ok data /\
    yaml_Unmarshal data = Ok doc /\
    Schema.Name pid = Schema.Name doc /\
    Schema.Resource pid = Schema.Resource doc /\
    Schema.Description pid = Schema.Description doc /\
    Schema.Fields pid = Schema.Fields doc.
Proof.
  apply (LoadAll_provenance (NewLoader "schemas") clinic [patient; pid] pid).
  - vm_compute. reflexivity.
  - apply list_elem_of_In. cbn. tauto.
Defined.

Lemma schema_and_mapping_sources_differ_witness :
  Schema.SourceFile patient <> "schemas/epic_clarity/patient_mapping.yaml".
Proof.
  apply (schema_and_mapping_sources_differ (M:=etlWalk)
           (NewLoader "schemas") (NewLoader "schemas") etl [patient] patient
           (stampMapping
              {| SchemaMapping.SourceSystem := EmptyString;
                 SchemaMapping.SourceTable := EmptyString;
                 SchemaMapping.TargetResource := "Patient";
                 SchemaMapping.FieldMappings := [];
                 SchemaMapping.SourceFile := EmptyString |}
              "schemas/epic_clarity/patient_mapping.yaml")).
  - vm_compute. reflexivity.
  - apply list_elem_of_In. cbn. tauto.
  - apply list_elem_of_In. vm_compute. tauto.
Defined.

Lemma renderSchema_frame_witness :
  renderSchema (contact "high" [valueField]) = renderSchema (contact "none" []).
Proof.
  apply renderSchema_frame; reflexivity.
Defined.

Lemma Generate_units_witness :
  (Generate (O:=quiet) [patient; pid] "out" clinic).1 = None /\
  w_trace (Generate (O:=quiet) [patient; pid] "out" clinic).2
  = w_trace clinic ++
    range_order (groupByNamespace [patient; pid]) ≫= namespaceCalls "out".
Proof.
  apply (Generate_units (O:=quiet)); reflexivity.
Defined.

Lemma Generate_create_count_witness :
  exists calls,
    w_trace (Generate (O:=quiet) [patient; pid; patient] "out" clinic).2
      = w_trace clinic ++ calls /\
    length (createCalls calls)
    = size (groupByNamespace [patient; pid; patient]) + 3.
Proof.
  apply (Generate_create_count (O:=quiet) [patient; pid; patient] "out" clinic);
    reflexivity.
Defined.

Lemma Generate_every_schema_witness :
  EvCreate "out/hl7v2/pid.py"
    ∈ w_trace (Generate (O:=quiet) [patient; pid] "out" clinic).2 /\
  EvWrite "out/hl7v2/pid.py" (renderSchema pid)
    ∈ w_trace (Generate (O:=quiet) [patient; pid] "out" clinic).2.
Proof.
  assert (pid ∈ [patient; pid]) as Hin by (apply list_elem_of_In; cbn; tauto).
  exact (Generate_every_schema (O:=quiet) [patient; pid] "out" clinic pid
           eq_refl (fun _ => eq_refl) (fun _ => eq_refl) (fun _ _ => eq_refl) Hin).
Defined.

Lemma LoadAll_reads_only_witness :
  w_fs (LoadAll (NewLoader "schemas") clinic).2 = w_fs clinic /\
  strings.HasSuffix "schemas/hl7v2/pid.yaml" "_mapping.yaml" = false.
Proof.
  destruct (LoadAll_reads_only (NewLoader "schemas") clinic)
    as (Hfs & calls & Htrace & _ & Hfiles).
  split; [exact Hfs|]. apply Hfiles.
  vm_compute in Htrace. injection Htrace as <-.
  apply list_elem_of_In. cbn. tauto.
Defined.

Lemma ListSchemas_entries_witness :
  exists names,
    (ListSchemas (NewLoader "schemas") clinic).1 = Ok names /\
    names !! 0 = Some "fhir_r4/Patient" /\
    Schema.GetName patient <> EmptyString.
Proof.
  pose proof (ListSchemas_entries (NewLoader "schemas") clinic) as Hlist.
  assert ((LoadAll (NewLoader "schemas") clinic).1 = Ok [patient; pid]) as Hload
    by (vm_compute; reflexivity).
  rewrite Hload in Hlist. destruct Hlist as (names & Hnames & _ & Hentries).
  exists names. split; [exact Hnames|].
  exact (Hentries 0 patient eq_refl).
Defined.

Lemma generateCmd_outcome_witness :
  (generateCmd (fun _ => NewGenerator) "schemas" "out" "python" vendor).1 = None /\
  (generateCmd (fun _ => NewGenerator) "schemas" "out" "python" vendor).2
  = log (EvPrintf ("Generated python code in out" +:+ newline))
        (Generate [pid] "out" (LoadAll (NewLoader "schemas") vendor).2).2 /\
  generateCmd (fun _ => NewGenerator) "schemas" "out" "python" bare
  = (Some (Wrap "failed to load schemas"
             (Wrap "failed to read schema dir"
                (New "open schemas: no such file or directory"))),
     (LoadAll (NewLoader "schemas") bare).2) /\
  generateCmd (fun _ => NewGenerator) "schemas" "out" "cobol" vendor
  = (Some (New "unsupported language: cobol"),
     (LoadAll (NewLoader "schemas") vendor).2).
Proof.
  assert ((LoadAll (NewLoader "schemas") vendor).1 = Ok [pid]) as Hload
    by (vm_compute; reflexivity).
  assert (selectGenerator "python" = Some Python) as Hselect by reflexivity.
  destruct (generateCmd_outcome (fun _ => NewGenerator) "schemas" "out" "python"
              vendor) as (Hnil & Hrun & _ & _).
  destruct (generateCmd_outcome (fun _ => NewGenerator) "schemas" "out" "python"
              bare) as (_ & _ & Hfail & _).
  destruct (generateCmd_outcome (fun _ => NewGenerator) "schemas" "out" "cobol"
              vendor) as (_ & _ & _ & Hunknown).
  split; [|split; [|split]].
  - apply Hnil. exists [pid], Python.
    split; [exact Hload|]. split; [exact Hselect|]. vm_compute. reflexivity.
  - exact (Hrun [pid] Python Hload Hselect).
  - apply Hfail. vm_compute. reflexivity.
  - exact (Hunknown [pid] Hload eq_refl).
Defined.

Lemma Generate_error_shapes_witness :
  Error (Wrap "failed to create directory"
              (New "mkdir out/fhir_r4: read-only file system"))
  = "failed to create directory: mkdir out/fhir_r4: read-only file system" /\
  ((exists path cause,
      out_MkdirAll (Output:=readonly) path = Some cause /\
      Wrap "failed to create directory"
           (New "mkdir out/fhir_r4: read-only file system")
      = Wrap "failed to create directory" cause) \/
   (exists name cause,
      out_Create (Output:=readonly) name = Some cause /\
      Wrap "failed to create directory"
           (New "mkdir out/fhir_r4: read-only file system")
      = Wrap "failed to create file" cause) \/
   (exists name text,
      out_Execute (Output:=readonly) name text
      = Some (Wrap "failed to create directory"
                   (New "mkdir out/fhir_r4: read-only file system")))).
Proof.
  split; [reflexivity|].
  apply (Generate_error_shapes (O:=readonly) [patient; pid] "out" clinic).
  vm_compute. reflexivity.
Defined.

End MoreRuns.
